(** * Verification of the lava link-processing pipeline

    A shallow embedding of [src/utils.ts] ([LinkUtils], [FileUtils]),
    [src/processor.ts] ([LinkProcessor]) and [src/server.ts]
    ([LavaServer.start], the [/api] handler).  Strings are byte strings
    (UTF-8 as the code receives it); the character classes of the source's
    regular expressions are taken on ASCII ([\s] is the ASCII white space). *)

From Stdlib Require Import String Ascii List Bool Arith NArith Lia.
Import ListNotations.
Open Scope list_scope.
Open Scope string_scope.
Open Scope nat_scope.

(** ** Characters and strings *)

Module Str.

Definition code (c : ascii) : nat := nat_of_ascii c.

(** [\s] of a JS regular expression and the characters [String.prototype.trim]
    removes, restricted to ASCII: tab, LF, VT, FF, CR and space. *)
Definition is_ws (c : ascii) : bool :=
  let n := code c in (9 <=? n) && (n <=? 13) || (n =? 32).

Definition lower_char (c : ascii) : ascii :=
  let n := code c in
  if (65 <=? n) && (n <=? 90) then ascii_of_nat (n + 32) else c.

Fixpoint to_lower (s : string) : string :=
  match s with
  | EmptyString => EmptyString
  | String c r => String (lower_char c) (to_lower r)
  end.

Fixpoint trim_start (s : string) : string :=
  match s with
  | String c r => if is_ws c then trim_start r else s
  | EmptyString => EmptyString
  end.

Fixpoint rev_str (s : string) (acc : string) : string :=
  match s with
  | EmptyString => acc
  | String c r => rev_str r (String c acc)
  end.

Definition trim_end (s : string) : string :=
  rev_str (trim_start (rev_str s EmptyString)) EmptyString.

(** [String.prototype.trim]. *)
Definition trim (s : string) : string := trim_end (trim_start s).

(** [s.startsWith(p)]. *)
Definition starts_with (p s : string) : bool := String.prefix p s.

(** [s.endsWith(p)]. *)
Definition ends_with (p s : string) : bool :=
  String.prefix (rev_str p EmptyString) (rev_str s EmptyString).

(** [s.includes(p)]. *)
Fixpoint includes (p s : string) : bool :=
  String.prefix p s ||
  match s with
  | EmptyString => false
  | String _ r => includes p r
  end.

Fixpoint includes_char (c : ascii) (s : string) : bool :=
  match s with
  | EmptyString => false
  | String d r => Ascii.eqb c d || includes_char c r
  end.

(** [s.split(sep)] for a one-character separator. *)
Fixpoint split_on (sep : ascii) (s : string) : list string :=
  match s with
  | EmptyString => [EmptyString]
  | String c r =>
      if Ascii.eqb c sep then EmptyString :: split_on sep r
      else match split_on sep r with
           | w :: ws => String c w :: ws
           | [] => [String c EmptyString]
           end
  end.

(** [xs.join(sep)]. *)
Fixpoint join (sep : string) (xs : list string) : string :=
  match xs with
  | [] => EmptyString
  | [x] => x
  | x :: r => x ++ sep ++ join sep r
  end.

(** [.filter(Boolean)] on strings: drop the empty ones. *)
Definition non_empty (xs : list string) : list string :=
  filter (fun w => negb (String.eqb w EmptyString)) xs.

(** Longest prefix of characters satisfying [p], and the rest. *)
Fixpoint span (p : ascii -> bool) (s : string) : string * string :=
  match s with
  | String c r =>
      if p c then let (a, b) := span p r in (String c a, b)
      else (EmptyString, s)
  | EmptyString => (EmptyString, EmptyString)
  end.

Fixpoint drop_while (p : ascii -> bool) (s : string) : string :=
  match s with
  | String c r => if p c then drop_while p r else s
  | EmptyString => EmptyString
  end.

(** The double-quote character, and the one-character string of it. *)
Definition dq : ascii := ascii_of_nat 34.
Definition dqs : string := String dq EmptyString.

(** Every character of [s] satisfies [p]. *)
Fixpoint str_all (p : ascii -> bool) (s : string) : bool :=
  match s with
  | EmptyString => true
  | String c r => p c && str_all p r
  end.

Fixpoint last_opt (xs : list string) : option string :=
  match xs with
  | [] => None
  | [x] => Some x
  | _ :: r => last_opt r
  end.

End Str.

Import Str.

(** [c] is one of the characters of [set]. *)
Definition in_set (set : string) (c : ascii) : bool := includes_char c set.

(** ** The URL class of the JS runtime

    The code relies on [new URL(input)] and [new URL(input, base)] (WHATWG URL
    standard) for [hostname], [pathname], [searchParams] and [href].  This is
    the standard's basic URL parser on byte strings, for the forms the code
    meets: special schemes [http]/[https] (slashes and backslashes, userinfo,
    port with default-port removal, path dot-segments, percent-encoding of
    path, query and fragment), and other schemes with an authority, an
    absolute path or an opaque path.  Not covered, and reported as a parse
    failure: IPv6 literals ([[...]]) and hosts with non-ASCII bytes (IDNA);
    IPv4 number normalisation and percent-decoding of hosts are not done. *)

Module Url.

Inductive url_path :=
| Segments (segs : list string)
| Opaque (p : string).

Record url := mkUrl {
  protocol : string;          (* scheme, lower case, without ':' *)
  userinfo : string;          (* empty when absent *)
  host : option string;       (* hostname; None: no authority *)
  port : string;              (* empty for none or the default port *)
  path : url_path;
  query : option string;
  fragment : option string }.

Definition is_special (sch : string) : bool :=
  String.eqb sch "http" || String.eqb sch "https".

Definition default_port (sch : string) : string :=
  if String.eqb sch "http" then "80" else if String.eqb sch "https" then "443" else EmptyString.

Definition hex_digit (n : nat) : ascii :=
  if n <? 10 then ascii_of_nat (48 + n) else ascii_of_nat (55 + n).

Definition pct (c : ascii) : string :=
  String "%" (String (hex_digit (code c / 16)) (String (hex_digit (code c mod 16)) EmptyString)).

Definition c0_or_high (c : ascii) : bool := (code c <? 32) || (126 <? code c).

Definition path_enc (c : ascii) : bool := c0_or_high c || in_set (" #<>?`{}" ++ dqs) c.
Definition query_enc (special : bool) (c : ascii) : bool :=
  c0_or_high c || in_set (" #<>" ++ dqs) c || (special && Ascii.eqb c "'").
Definition fragment_enc (c : ascii) : bool := c0_or_high c || in_set (" <>`" ++ dqs) c.

Fixpoint encode (p : ascii -> bool) (s : string) : string :=
  match s with
  | EmptyString => EmptyString
  | String c r => (if p c then pct c else String c EmptyString) ++ encode p r
  end.

(** Strip leading and trailing C0 controls and spaces, remove tab, LF, CR. *)
Definition c0_space (c : ascii) : bool := code c <=? 32.
Fixpoint remove_tab_nl (s : string) : string :=
  match s with
  | EmptyString => EmptyString
  | String c r =>
      if (code c =? 9) || (code c =? 10) || (code c =? 13) then remove_tab_nl r
      else String c (remove_tab_nl r)
  end.
Definition preprocess (s : string) : string :=
  remove_tab_nl (rev_str (drop_while c0_space (rev_str (drop_while c0_space s) EmptyString)) EmptyString).

Definition is_alpha (c : ascii) : bool :=
  let n := code (lower_char c) in (97 <=? n) && (n <=? 122).
Definition is_digit (c : ascii) : bool := (48 <=? code c) && (code c <=? 57).

(** The scheme of [s] and what follows the ':' . *)
Definition scheme_split (s : string) : option (string * string) :=
  match s with
  | String c r =>
      if is_alpha c then
        let (more, after) :=
          span (fun d => is_alpha d || is_digit d || in_set "+-." d) r in
        match after with
        | String ":" rest => Some (to_lower (String c more), rest)
        | _ => None
        end
      else None
  | EmptyString => None
  end.

(** The path state, from a path list [acc] (reversed) and a segment
    [buf] (reversed); stops at '?', '#' or the end. *)
Definition single_dot (b : string) : bool :=
  String.eqb b "." || String.eqb (to_lower b) "%2e".
Definition double_dot (b : string) : bool :=
  let l := to_lower b in
  String.eqb l ".." || String.eqb l ".%2e" || String.eqb l "%2e." || String.eqb l "%2e%2e".

Definition push_segment (acc : list string) (buf : string) (at_slash : bool) : list string :=
  let b := rev_str buf EmptyString in
  if double_dot b then
    let acc' := tl acc in if at_slash then acc' else EmptyString :: acc'
  else if single_dot b then
    if at_slash then acc else EmptyString :: acc
  else encode path_enc b :: acc.

Fixpoint path_state (special : bool) (acc : list string) (buf : string) (s : string)
  : list string * string :=
  match s with
  | EmptyString => (rev (push_segment acc buf false), EmptyString)
  | String c r =>
      if Ascii.eqb c "/" || (special && Ascii.eqb c "\") then
        path_state special (push_segment acc buf true) EmptyString r
      else if Ascii.eqb c "?" || Ascii.eqb c "#" then
        (rev (push_segment acc buf false), s)
      else path_state special acc (String c buf) r
  end.

(** Query and fragment after the path. *)
Definition query_fragment (special : bool) (s : string) : option string * option string :=
  match s with
  | String "?" r =>
      let (q, f) := span (fun c => negb (Ascii.eqb c "#")) r in
      (Some (encode (query_enc special) q),
       match f with String _ fr => Some (encode fragment_enc fr) | _ => None end)
  | String "#" fr => (None, Some (encode fragment_enc fr))
  | _ => (None, None)
  end.

Definition forbidden_domain (c : ascii) : bool :=
  (code c <=? 32) || (code c =? 127) || (126 <? code c) || in_set "#%/:<>?@[\]^|" c.

Fixpoint last_index_of (c : ascii) (s : string) (i : nat) (found : option nat) : option nat :=
  match s with
  | EmptyString => found
  | String d r => last_index_of c r (S i) (if Ascii.eqb c d then Some i else found)
  end.

Fixpoint digits_value (s : string) (acc : N) : option N :=
  match s with
  | EmptyString => Some acc
  | String c r =>
      if is_digit c then digits_value r (acc * 10 + N.of_nat (code c - 48))%N else None
  end.

(** Port serialisation: decimal (leading zeros dropped), the empty string for the
    scheme's default. *)
Definition parse_port (sch p : string) : option string :=
  match digits_value p 0%N with
  | Some n =>
      if String.eqb p EmptyString then Some EmptyString
      else if (65535 <? n)%N then None
      else let ps := match drop_while (fun c => Ascii.eqb c "0") p with
                     | EmptyString => "0"
                     | t => t
                     end in
           if String.eqb ps (default_port sch) then Some EmptyString else Some ps
  | None => None
  end.

(** The authority (userinfo, host, port) of a URL. *)
Definition parse_authority (sch : string) (special : bool) (auth : string)
  : option (string * string * string) :=
  let '(ui, hp) :=
    match last_index_of "@" auth 0 None with
    | Some i => (substring 0 i auth, substring (S i) (String.length auth) auth)
    | None => (EmptyString, auth)
    end in
  let '(h, p) :=
    match last_index_of ":" hp 0 None with
    | Some i => (substring 0 i hp, substring (S i) (String.length hp) hp)
    | None => (hp, EmptyString)
    end in
  match parse_port sch p with
  | None => None
  | Some port =>
      if special then
        if String.eqb h EmptyString
           || existsb forbidden_domain (list_ascii_of_string h) then None
        else Some (ui, to_lower h, port)
      else if existsb (fun c => (code c <? 32) || (126 <? code c) || in_set " #/<>?@[\]^|" c)
                      (list_ascii_of_string h) then None
      else Some (ui, h, port)
  end.

(** Authority, then path, query and fragment. *)
Definition after_authority (sch : string) (s : string) : option url :=
  let special := is_special sch in
  let (auth, rest) :=
    span (fun c => negb (Ascii.eqb c "/" || (special && Ascii.eqb c "\")
                         || Ascii.eqb c "?" || Ascii.eqb c "#")) s in
  match parse_authority sch special auth with
  | None => None
  | Some (ui, h, p) =>
      let '(segs, qf) :=
        match rest with
        | String c r =>
            if Ascii.eqb c "/" || (special && Ascii.eqb c "\")
            then path_state special [] EmptyString r
            else if special then path_state special [] EmptyString rest
            else ([], rest)
        | EmptyString => if special then ([EmptyString], EmptyString) else ([], EmptyString)
        end in
      let (q, f) := query_fragment special qf in
      Some (mkUrl sch ui (Some h) p (Segments segs) q f)
  end.

Fixpoint drop_slashes (special : bool) (s : string) : string :=
  match s with
  | String c r =>
      if Ascii.eqb c "/" || (special && Ascii.eqb c "\") then drop_slashes special r else s
  | EmptyString => EmptyString
  end.

Definition is_slash (special : bool) (c : ascii) : bool :=
  Ascii.eqb c "/" || (special && Ascii.eqb c "\").

Definition base_segs (b : url) : list string :=
  match path b with Segments l => l | Opaque _ => [] end.

(** The relative state: [s] read against the base [b]. *)
Definition relative (b : url) (s : string) : option url :=
  let sch := protocol b in
  let special := is_special sch in
  let with_path segs qf :=
    let (q, f) := query_fragment special qf in
    Some (mkUrl sch (userinfo b) (host b) (port b) (Segments segs) q f) in
  match s with
  | EmptyString => Some (mkUrl sch (userinfo b) (host b) (port b) (path b) (query b) None)
  | String c r =>
      if is_slash special c then
        match r with
        | String d _ =>
            if is_slash special d then after_authority sch (drop_slashes special r)
            else let (segs, qf) := path_state special [] EmptyString r in with_path segs qf
        | EmptyString =>
            let (segs, qf) := path_state special [] EmptyString r in with_path segs qf
        end
      else if Ascii.eqb c "?" then
        let (q, f) := query_fragment special s in
        Some (mkUrl sch (userinfo b) (host b) (port b) (path b) q f)
      else if Ascii.eqb c "#" then
        Some (mkUrl sch (userinfo b) (host b) (port b) (path b) (query b)
                    (snd (query_fragment special s)))
      else
        let (segs, qf) :=
          path_state special (tl (rev (base_segs b))) EmptyString s in
        with_path segs qf
  end.

(** [new URL(input, base)]; [None] is a thrown [TypeError]. *)
Definition parse (input : string) (base : option url) : option url :=
  let s := preprocess input in
  match scheme_split s with
  | Some (sch, rest) =>
      if is_special sch then
        match base with
        | Some b =>
            if String.eqb (protocol b) sch && negb (String.prefix "//" rest)
            then relative b rest
            else after_authority sch (drop_slashes true rest)
        | None => after_authority sch (drop_slashes true rest)
        end
      else if String.prefix "//" rest then
        after_authority sch (substring 2 (String.length rest) rest)
      else match rest with
           | String "/" r =>
               let (segs, qf) := path_state false [] EmptyString r in
               let (q, f) := query_fragment false qf in
               Some (mkUrl sch EmptyString None EmptyString (Segments segs) q f)
           | _ =>
               let (op, qf) := span (fun c => negb (Ascii.eqb c "?" || Ascii.eqb c "#")) rest in
               let (q, f) := query_fragment false qf in
               Some (mkUrl sch EmptyString None EmptyString
                           (Opaque (encode c0_or_high op)) q f)
           end
  | None =>
      match base with
      | None => None
      | Some b =>
          match path b with
          | Opaque _ =>
              match s with
              | String "#" _ => Some (mkUrl (protocol b) (userinfo b) (host b) (port b)
                                            (path b) (query b)
                                            (snd (query_fragment false s)))
              | _ => None
              end
          | Segments _ => relative b s
          end
      end
  end.

(** [url.pathname]. *)
Definition pathname (u : url) : string :=
  match path u with
  | Segments segs => String.concat EmptyString (map (fun sg => "/" ++ sg) segs)
  | Opaque p => p
  end.

(** [url.hostname]. *)
Definition hostname (u : url) : string :=
  match host u with Some h => h | None => EmptyString end.

(** [url.href]. *)
Definition href (u : url) : string :=
  protocol u ++ ":" ++
  match host u with
  | Some h =>
      "//" ++ (if String.eqb (userinfo u) EmptyString then EmptyString else userinfo u ++ "@")
      ++ h ++ (if String.eqb (port u) EmptyString then EmptyString else ":" ++ port u)
  | None => EmptyString
  end
  ++ pathname u
  ++ match query u with Some q => "?" ++ q | None => EmptyString end
  ++ match fragment u with Some f => "#" ++ f | None => EmptyString end.

(** [url.pathname = url.pathname + '/'] on a URL with a segment path. *)
Definition append_slash (u : url) : url :=
  match path u with
  | Segments segs => mkUrl (protocol u) (userinfo u) (host u) (port u)
                           (Segments (segs ++ [EmptyString])%list) (query u) (fragment u)
  | Opaque _ => u
  end.

(** [application/x-www-form-urlencoded] decoding of one name or value. *)
Definition hex_val (c : ascii) : option nat :=
  let n := code c in
  if is_digit c then Some (n - 48)
  else if (97 <=? code (lower_char c)) && (code (lower_char c) <=? 102)
  then Some (code (lower_char c) - 87) else None.

Fixpoint form_decode (s : string) : string :=
  match s with
  | EmptyString => EmptyString
  | String "+" r => String " " (form_decode r)
  | String "%" (String h1 (String h2 r) as r1) =>
      match hex_val h1, hex_val h2 with
      | Some a, Some b => String (ascii_of_nat (a * 16 + b)) (form_decode r)
      | _, _ => String "%" (form_decode r1)
      end
  | String c r => String c (form_decode r)
  end.

(** [url.searchParams]: the list of name/value pairs. *)
Definition search_params (u : url) : list (string * string) :=
  match query u with
  | None => []
  | Some q =>
      map (fun kv => let (k, v) := span (fun c => negb (Ascii.eqb c "=")) kv in
                     (form_decode k,
                      form_decode (match v with String _ r => r | EmptyString => EmptyString end)))
          (non_empty (split_on "&" q))
  end.

(** [searchParams.get(name)]: the first value, [None] for [null]. *)
Definition sp_get (u : url) (name : string) : option string :=
  option_map snd (find (fun kv => String.eqb (fst kv) name) (search_params u)).

Definition sp_has (u : url) (name : string) : bool :=
  match sp_get u name with Some _ => true | None => false end.

End Url.

(** ** LinkUtils (src/utils.ts) : the parts that need no URL parser *)

Module LinkUtils.

(** [isProcessed]: [line.trim().startsWith("- [x]")]. *)
Definition isProcessed (line : string) : bool :=
  starts_with "- [x]" (trim line).

(** [markAsProcessed]: [`- [x] ${link}`]. *)
Definition markAsProcessed (link : string) : string := "- [x] " ++ link.

(** [shouldSkip]: [!line.trim() || isProcessed(line)]. *)
Definition shouldSkip (line : string) : bool :=
  String.eqb (trim line) EmptyString || isProcessed line.

(** The [https?:\/\/] head of the link regular expressions: the length of the
    scheme part matched at the start of [s] ("https://" is tried first, as
    the greedy [s?] does). *)
Definition http_head (s : string) : option string :=
  if String.prefix "https://" s then Some "https://"
  else if String.prefix "http://" s then Some "http://"
  else None.

(** A match of [/\((https?:\/\/[^\s)]+)\)/] starting exactly at [s]:
    the captured URL. *)
Definition md_target_at (s : string) : option string :=
  match s with
  | String "(" r =>
      match http_head r with
      | Some h =>
          let rest := substring (String.length h) (String.length r) r in
          let (run, after) := span (fun c => negb (is_ws c || Ascii.eqb c ")")) rest in
          match run, after with
          | String _ _, String ")" _ => Some (h ++ run)
          | _, _ => None
          end
      | None => None
      end
  | _ => None
  end.

(** A match of [/(https?:\/\/[^\s\]]+)/] starting exactly at [s]. *)
Definition bare_at (s : string) : option string :=
  match http_head s with
  | Some h =>
      let rest := substring (String.length h) (String.length s) s in
      let (run, _) := span (fun c => negb (is_ws c || Ascii.eqb c "]")) rest in
      match run with
      | String _ _ => Some (h ++ run)
      | EmptyString => None
      end
  | None => None
  end.

(** [String.prototype.match] with a non-global regex: the leftmost match. *)
Fixpoint first_match (m : string -> option string) (s : string) : option string :=
  match m s with
  | Some x => Some x
  | None =>
      match s with
      | EmptyString => None
      | String _ r => first_match m r
      end
  end.

(** [sanitizeLink]. *)
Definition sanitizeLink (link : string) : string :=
  let trimmed :=
    trim (snd (span (fun c => Ascii.eqb c "-" || is_ws c || Ascii.eqb c "["
                              || Ascii.eqb c "]" || Ascii.eqb c "x") link)) in
  match first_match md_target_at trimmed with
  | Some u => u
  | None =>
      match first_match bare_at trimmed with
      | Some u => u
      | None => trimmed
      end
  end.

(** [isValidHttpLink]: [/^https?:\/\/[^\s/$.?#].[^\s]*$/i].  The [.] matches
    any character but a line terminator (LF, CR). *)
Definition isValidHttpLink (link : string) : bool :=
  let low := to_lower link in
  match http_head low with
  | Some h =>
      match substring (String.length h) (String.length link) link with
      | String c1 (String c2 rest) =>
          negb (is_ws c1 || in_set "/$.?#" c1)
          && negb (Ascii.eqb c2 (ascii_of_nat 10) || Ascii.eqb c2 (ascii_of_nat 13))
          && forallb (fun c => negb (is_ws c)) (list_ascii_of_string rest)
      | _ => false
      end
  | None => false
  end.

Definition nonHtmlExtensions : list string :=
  [".pdf"; ".doc"; ".docx"; ".xls"; ".xlsx"; ".ppt"; ".pptx";
   ".png"; ".jpg"; ".jpeg"; ".gif"; ".svg"; ".webp"; ".ico";
   ".mp3"; ".mp4"; ".avi"; ".mov"; ".wmv"; ".flv";
   ".zip"; ".rar"; ".tar"; ".gz"; ".7z";
   ".txt"; ".csv"; ".xml"; ".json";
   ".exe"; ".dmg"; ".pkg"; ".deb"; ".rpm"].

(** [hasNonHtmlExtension]. *)
Definition hasNonHtmlExtension (link : string) : bool :=
  let urlPath := to_lower (hd EmptyString (split_on "?" link)) in
  existsb (fun ext => ends_with ext urlPath) nonHtmlExtensions.

(** [isBlockedDomain]. *)
Definition blockedDomains : list string :=
  ["docs.google.com"; "sheets.google.com"; "sites.google.com"; "drive.google.com"].

Definition isBlockedDomain (link : string) : bool :=
  match Url.parse link None with
  | Some u =>
      let h := to_lower (Url.hostname u) in
      existsb (fun b => String.eqb h b || ends_with ("." ++ b) h) blockedDomains
  | None => false
  end.

(** [pathname.split("/").filter(Boolean)]. *)
Definition path_parts (u : Url.url) : list string :=
  non_empty (split_on "/" (Url.pathname u)).

(** [x || null] on a string that may be [undefined]. *)
Definition or_null (x : option string) : option string :=
  match x with Some (String _ _) => x | _ => None end.

(** [getYouTubeId]: [None] is [null]; [Some EmptyString] is the empty string returned
    by [searchParams.get("v")] for [?v=]. *)
Definition getYouTubeId (link : string) : option string :=
  match Url.parse link None with
  | None => None
  | Some u =>
      let h := to_lower (Url.hostname u) in
      if String.eqb h "youtu.be" then or_null (hd_error (path_parts u))
      else if ends_with "youtube.com" h then
        if Url.sp_has u "v" then Url.sp_get u "v"
        else match path_parts u with
             | p0 :: rest =>
                 if String.eqb p0 "embed" || String.eqb p0 "shorts" || String.eqb p0 "live"
                 then or_null (hd_error rest) else None
             | [] => None
             end
      else None
  end.

(** [isYouTubeChannel]. *)
Definition isYouTubeChannel (link : string) : bool :=
  match Url.parse link None with
  | None => false
  | Some u =>
      let h := to_lower (Url.hostname u) in
      if negb (String.eqb h "youtu.be" || ends_with "youtube.com" h) then false
      else match path_parts u with
           | [] => false
           | p0 :: _ =>
               let first := to_lower p0 in
               if String.eqb first "channel" || String.eqb first "c" || String.eqb first "user"
               then true
               else if starts_with "/@" (Url.pathname u)
                       || existsb (starts_with "@") (path_parts u) then true
               else false
           end
  end.

(** [canonicalizeYouTubeUrl(link, id?)]. *)
Definition canonicalizeYouTubeUrl (link : string) (id : option string) : string :=
  match id with
  | Some (String _ _ as i) => "https://www.youtube.com/watch?v=" ++ i
  | _ =>
      match Url.parse link None with
      | None => link
      | Some u =>
          match Url.sp_get u "v" with
          | Some v => "https://www.youtube.com/watch?v=" ++ v
          | None =>
              let yb :=
                if String.eqb (to_lower (Url.hostname u)) "youtu.be" then
                  match hd_error (path_parts u) with
                  | Some (String _ _ as pid) => Some ("https://www.youtube.com/watch?v=" ++ pid)
                  | _ => None
                  end
                else None in
              match yb with
              | Some c => c
              | None =>
                  match path_parts u with
                  | p0 :: (String _ _ as pid) :: _ =>
                      if String.eqb p0 "embed" || String.eqb p0 "shorts" || String.eqb p0 "live"
                      then "https://www.youtube.com/watch?v=" ++ pid else link
                  | _ => link
                  end
              end
          end
      end
  end.

(** Collapse every maximal run of characters satisfying [p] into [rep]. *)
Fixpoint collapse_runs (p : ascii -> bool) (rep : string) (in_run : bool) (s : string) : string :=
  match s with
  | EmptyString => EmptyString
  | String c r =>
      if p c then (if in_run then EmptyString else rep) ++ collapse_runs p rep true r
      else String c (collapse_runs p rep false r)
  end.

(** [/[—–−]/g -> "-"] on the UTF-8 bytes of the three dashes. *)
Fixpoint replace_dashes (s : string) : string :=
  match s with
  | String c1 (String c2 (String c3 r) as r1) =>
      if (code c1 =? 226) &&
         ((code c2 =? 128) && ((code c3 =? 148) || (code c3 =? 147))
          || (code c2 =? 136) && (code c3 =? 146))
      then String "-" (replace_dashes r)
      else String c1 (replace_dashes r1)
  | String c r => String c (replace_dashes r)
  | EmptyString => EmptyString
  end.

Fixpoint map_chars (f : ascii -> string) (s : string) : string :=
  match s with
  | EmptyString => EmptyString
  | String c r => f c ++ map_chars f r
  end.

(** [sanitizeFileName]. *)
Definition sanitizeFileName (name : string) : string :=
  let s1 := replace_dashes name in
  let s2 := map_chars (fun c => if in_set (":/\?%*|<>" ++ dqs) c then "-" else String c EmptyString) s1 in
  let s3 := map_chars (fun c => if (32 <=? code c) && (code c <=? 126)
                                then String c EmptyString else EmptyString) s2 in
  let s4 := collapse_runs is_ws "_" false s3 in
  let s5 := collapse_runs (fun c => Ascii.eqb c "-") "-" false s4 in
  let s6 := collapse_runs (fun c => Ascii.eqb c "_") "_" false s5 in
  let edge c := Ascii.eqb c "-" || Ascii.eqb c "_" || is_ws c in
  let s7 := rev_str (drop_while edge (rev_str (drop_while edge (trim s6)) EmptyString)) EmptyString in
  let s8 := drop_while (fun c => Ascii.eqb c ".") s7 in
  let s9 := trim (substring 0 200 s8) in
  match s9 with EmptyString => "Untitled" | _ => s9 end.

(** The characters a file name from [sanitizeFileName] is made of:
    printable ASCII, none of the characters its first replacement rewrites
    to ["-"], no white space. *)
Definition safe_name_char (c : ascii) : bool :=
  (32 <=? code c) && (code c <=? 126)
  && negb (in_set (":/\?%*|<>" ++ dqs) c) && negb (is_ws c).

End LinkUtils.

(** ** FileUtils (src/utils.ts) *)

Module FileUtils.

Import LinkUtils.

(** A frontmatter value: a string or a list of strings (the tags). *)
Inductive fm_val :=
| FStr (s : string)
| FList (xs : list string).

(** A JS object literal, as its ordered entries. *)
Definition fm_obj := list (string * fm_val).

(** [a || b] on strings ([undefined] is modelled by the empty string). *)
Definition str_or (a b : string) : string :=
  match a with EmptyString => b | _ => a end.

(** The filter shared by [buildFrontmatter] and the [cleanedFrontmatter] of
    the processor: drop empty strings and empty arrays. *)
Definition keep_entry (kv : string * fm_val) : bool :=
  match snd kv with
  | FStr EmptyString => false
  | FList [] => false
  | _ => true
  end.

(** [value.replace(/"/g, '\\"')]. *)
Definition escape_quotes (s : string) : string :=
  map_chars (fun c => if Ascii.eqb c dq then "\" ++ dqs else String c EmptyString) s.

Definition render_entry (kv : string * fm_val) : string :=
  match snd kv with
  | FList xs => fst kv ++ ":" ++ String (ascii_of_nat 10) EmptyString
                ++ join (String (ascii_of_nat 10) EmptyString) (map (fun v => "  - " ++ v) xs)
  | FStr s => fst kv ++ ": " ++ dqs ++ escape_quotes s ++ dqs
  end.

Definition nl : string := String (ascii_of_nat 10) EmptyString.

(** The object literal built by [buildFrontmatter]; [today] is
    [new Date().toISOString().split("T")[0]]. *)
Definition frontmatter_entries (today title url domain author published description image favicon : string)
  : fm_obj :=
  [("title", FStr (str_or title "Untitled"));
   ("source", FStr (match domain with EmptyString => url | _ => "https://" ++ domain end));
   ("url", FStr url);
   ("author", FStr (str_or author EmptyString));
   ("published", FStr (str_or published EmptyString));
   ("clipped", FStr today);
   ("tags", FList ["clippings"]);
   ("description", FStr (str_or description EmptyString));
   ("image", FStr (str_or image EmptyString));
   ("favicon", FStr (str_or favicon EmptyString))].

(** [buildFrontmatter]. *)
Definition buildFrontmatter (today title url domain author published description image favicon : string)
  : string :=
  join nl (map render_entry
                (filter keep_entry
                        (frontmatter_entries today title url domain author published
                                             description image favicon))).

(** [buildMarkdownContent]. *)
Definition buildMarkdownContent (today title url domain author published description image favicon content : string)
  : string :=
  let frontmatter := buildFrontmatter today title url domain author published description image favicon in
  "---" ++ nl ++ frontmatter ++ nl ++ "---" ++ nl ++ "# " ++ str_or title "Untitled" ++ nl ++ nl ++ content.

(** A match, starting exactly at [s], of the regular expression of
    [fixImagePaths]: [!] [[] alt text without [\]] [\]] [(] a target without
    [)], not starting with [http://] or [https://] (negative lookahead), [)].
    Returns the alt text, the target and what follows the match. *)
Definition image_at (s : string) : option (string * string * string) :=
  match s with
  | String "!" (String "[" r) =>
      let (alt, a1) := span (fun c => negb (Ascii.eqb c "]")) r in
      match a1 with
      | String "]" (String "(" r2) =>
          if String.prefix "http://" r2 || String.prefix "https://" r2 then None
          else let (p, a2) := span (fun c => negb (Ascii.eqb c ")")) r2 in
               match a2 with
               | String ")" rest => Some (alt, p, rest)
               | _ => None
               end
      | _ => None
      end
  | _ => None
  end.

(** [String.prototype.replace] with that global regex and the replacer [f]:
    the string is scanned left to right; at a match the replacement is
    emitted and [drop] counts the remaining characters of the match. *)
Fixpoint replace_images (f : string -> string -> string) (drop : nat) (s : string) : string :=
  match s with
  | EmptyString => EmptyString
  | String c r =>
      match drop with
      | S d => replace_images f d r
      | O =>
          match image_at s with
          | Some (alt, p, _) =>
              f alt p ++ replace_images f (String.length alt + String.length p + 4) r
          | None => String c (replace_images f 0 r)
          end
      end
  end.

(** The base normalisation of [fixImagePaths]. *)
Definition normalize_base (baseUrl : string) : string :=
  match Url.parse baseUrl None with
  | Some u =>
      let pn := Url.pathname u in
      let lastSegment := match last_opt (non_empty (split_on "/" pn)) with
                         | Some x => x | None => EmptyString end in
      if negb (ends_with "/" pn) && negb (String.eqb lastSegment EmptyString)
         && negb (includes "." lastSegment)
      then Url.href (Url.append_slash u) else baseUrl
  | None => baseUrl
  end.

(** [new URL(path, normalizedBase).href]; [None] when it throws. *)
Definition resolve (p base : string) : option string :=
  match Url.parse base None with
  | Some b => option_map Url.href (Url.parse p (Some b))
  | None => None
  end.

(** The replacer of [fixImagePaths]. *)
Definition fix_one (normalizedBase : string) (alt p : string) : string :=
  match resolve p normalizedBase with
  | Some resolved => "![" ++ alt ++ "](" ++ resolved ++ ")"
  | None => "![" ++ alt ++ "](" ++ p ++ ")"
  end.

(** [fixImagePaths]. *)
Definition fixImagePaths (content baseUrl : string) : string :=
  replace_images (fix_one (normalize_base baseUrl)) 0 content.

(** The segmentation of a body that [replace_images] performs: single
    characters copied as they are, and the image references the regular
    expression matches. *)
Inductive piece :=
| Text (c : ascii)
| Image (alt target : string).

Fixpoint image_pieces (drop : nat) (s : string) : list piece :=
  match s with
  | EmptyString => []
  | String c r =>
      match drop with
      | S d => image_pieces d r
      | O =>
          match image_at s with
          | Some (alt, p, _) =>
              Image alt p :: image_pieces (String.length alt + String.length p + 4) r
          | None => Text c :: image_pieces 0 r
          end
      end
  end.

(** A piece as it is written in the body. *)
Definition piece_text (pc : piece) : string :=
  match pc with
  | Text c => String c EmptyString
  | Image alt p => "![" ++ alt ++ "](" ++ p ++ ")"
  end.

(** A piece after the replacer [f]. *)
Definition piece_replaced (f : string -> string -> string) (pc : piece) : string :=
  match pc with
  | Text c => String c EmptyString
  | Image alt p => f alt p
  end.

Definition concat_map (g : piece -> string) (ps : list piece) : string :=
  fold_right (fun pc acc => g pc ++ acc) EmptyString ps.

(** [buildStubMarkdown]. *)
Definition stub_body (url : string) : string :=
  "Content could not be extracted automatically." ++ nl ++ nl ++ "Link: " ++ url.

Definition buildStubMarkdown (today title url : string) : string :=
  let safeTitle := str_or title "Untitled Link" in
  let domain := match Url.parse url None with
                | Some u => Url.hostname u
                | None => EmptyString
                end in
  let frontmatter := buildFrontmatter today safeTitle url domain EmptyString EmptyString EmptyString EmptyString EmptyString in
  "---" ++ nl ++ frontmatter ++ nl ++ "---" ++ nl ++ "# " ++ safeTitle ++ nl ++ nl ++ stub_body url.

(** The value returned by [buildYouTubeEmbed]. *)
Record embed := mkEmbed {
  e_frontmatter : string;
  e_frontmatterObj : fm_obj;
  e_content : string;
  e_body : string;
  e_title : string }.

(** [buildYouTubeEmbed]. *)
Definition buildYouTubeEmbed (today title url id : string) : embed :=
  let safeTitle := str_or title "YouTube Video" in
  let canonicalUrl := canonicalizeYouTubeUrl url (Some id) in
  let thumbnailUrl := "https://img.youtube.com/vi/" ++ id ++ "/hqdefault.jpg" in
  let frontmatterObj :=
    [("title", FStr safeTitle); ("source", FStr "https://youtube.com");
     ("url", FStr canonicalUrl); ("clipped", FStr today);
     ("tags", FList ["clippings"; "youtube"]); ("image", FStr thumbnailUrl)] in
  let frontmatter :=
    buildFrontmatter today safeTitle canonicalUrl "youtube.com" EmptyString EmptyString EmptyString thumbnailUrl EmptyString in
  let body := "![" ++ safeTitle ++ "](" ++ canonicalUrl ++ ")" in
  let content := "---" ++ nl ++ frontmatter ++ nl ++ "---" ++ nl ++ "# " ++ safeTitle ++ nl ++ nl ++ body in
  mkEmbed frontmatter frontmatterObj content body safeTitle.

End FileUtils.

(** ** LinkProcessor (src/processor.ts) *)

Module Processor.

Import LinkUtils FileUtils.

Inductive parser := Puppeteer | Jsdom.
Inductive return_format := Md | Json.

(** What Defuddle returns; an absent field is the empty string, which every
    use in the code treats like [undefined] ([x || ...], [if (x)]). *)
Record extraction := mkExtraction {
  x_title : string; x_author : string; x_published : string;
  x_description : string; x_image : string; x_favicon : string;
  x_domain : string; x_content : string }.

(** A [fetch] response. [r_text] is [None] when [response.text()] throws. *)
Record response := mkResponse {
  r_ok : bool; r_content_type : string; r_text : option string }.

(** Completion of an async computation: a value or a thrown error. *)
Inductive outcome (A : Type) :=
| Ok (a : A)
| Throw (msg : string).
Arguments Ok {A} a.
Arguments Throw {A} msg.

(** The collaborators of the processor and its configuration:
    - [page_goto t]: [browser.newPage()] and [page.goto(t)], then
      [page.evaluate]: the content type of the response (empty when there
      is no response), the HTML and [document.URL]; [None] when they throw;
    - [net_fetch t]: [fetch(t)], [None] when it throws;
    - [defuddle html url]: [new JSDOM] and [Defuddle], [None] when they throw;
    - [oembed_title u]: the [title] field of the oEmbed response for [u],
      [None] on any failure;
    - [write_ok name]: persisting the file [name] ([getClippingPath],
      [mkdirSync], [writeFileSync]) succeeds;
    - [browser_ok]: [initializePuppeteer] succeeds;
    - [browser_error]: the message of the error [initializePuppeteer]
      throws otherwise: [Chrome executable not found. Please install with:
      ...] when no Chrome executable is found, the error of
      [puppeteer.launch] when the launch fails;
    - [today]: [new Date().toISOString().split("T")[0]];
    - [cfg_*]: the fields of the [ConfigManager]: [parser], [returnFormat],
      [saveToDisk], [clippingDir] ([CLIPPING_DIR], [None] when unset) and
      [linksFile] ([LINKS_FILE]);
    - [read_file f]: [readFileSync] of the links file [f] (resolved against
      the working directory as [getLinksFilePath] does): its content, or the
      error it throws;
    - [links_write_ok c]: [writeFileSync] of the content [c] to the links
      file succeeds. *)
Record env := mkEnv {
  page_goto : string -> option (string * string * string);
  net_fetch : string -> option response;
  defuddle : string -> string -> option extraction;
  oembed_title : string -> option string;
  write_ok : string -> bool;
  browser_ok : bool;
  browser_error : string;
  today : string;
  cfg_parser : parser;
  cfg_return_format : return_format;
  cfg_save_to_disk : bool;
  cfg_clipping_dir : option string;
  cfg_links_file : option string;
  read_file : string -> outcome string;
  links_write_ok : string -> bool }.

(** Observable effects, in the order they happen. *)
Inductive event :=
| EvYouTubeTitle (url : string)           (* the oEmbed lookup *)
| EvBrowserInit
| EvBrowserClose
| EvNavigate (task : string)              (* newPage + goto *)
| EvFetch (task : string)                 (* fetch(task) *)
| EvExtract (url : string)                (* JSDOM + Defuddle *)
| EvWrite (fileName : string) (content : string)
| EvCallback (index : nat) (line : string). (* onLinkProcessed *)

(** The effect monad: the events performed, and the outcome. *)
Definition M (A : Type) := (list event * outcome A)%type.

Definition ret {A} (a : A) : M A := ([], Ok a).
Definition throw {A} (msg : string) : M A := ([], Throw msg).
Definition emit (e : event) : M unit := ([e], Ok tt).
(** The value of a computation that completed normally. *)
Definition result_of {A} (m : M A) : option A :=
  match snd m with Ok a => Some a | Throw _ => None end.
(** The [onLinkProcessed] calls of a trace. *)
Definition callbacks (t : list event) : list (nat * string) :=
  flat_map (fun e => match e with EvCallback i l => [(i, l)] | _ => [] end) t.
(** The [fetch] calls of a trace. *)
Definition fetches (t : list event) : nat :=
  length (filter (fun e => match e with EvFetch _ => true | _ => false end) t).
(** The files a trace writes. *)
Definition writes (t : list event) : list (string * string) :=
  flat_map (fun e => match e with EvWrite n c => [(n, c)] | _ => [] end) t.
(** The page a navigation or a [fetch(task)] requests (the oEmbed lookup of
    [fetchYouTubeTitle] is the separate event [EvYouTubeTitle]). *)
Definition requested (e : event) : option string :=
  match e with EvNavigate t | EvFetch t => Some t | _ => None end.
(** Starting or closing the browser. *)
Definition browser_event (e : event) : bool :=
  match e with EvBrowserInit | EvBrowserClose => true | _ => false end.
(** The events a single-link method can perform. *)
Definition single_event (e : event) : bool :=
  match e with
  | EvYouTubeTitle _ | EvNavigate _ | EvFetch _ | EvExtract _ | EvWrite _ _ => true
  | _ => false
  end.
(** A trace made only of [onLinkProcessed] calls: no adapter, browser,
    network or file effect. *)
Definition only_callbacks (t : list event) : bool :=
  forallb (fun e => match e with EvCallback _ _ => true | _ => false end) t.
Definition bind {A B} (m : M A) (f : A -> M B) : M B :=
  match m with
  | (t, Ok a) => let (t', r) := f a in (t ++ t', r)%list
  | (t, Throw e) => (t, Throw e)
  end.
(** [try { m } catch { h }]. *)
Definition try_catch {A} (m : M A) (h : string -> M A) : M A :=
  match m with
  | (t, Throw e) => let (t', r) := h e in (t ++ t', r)%list
  | ok => ok
  end.
(** [try { m } finally { fin }]. *)
Definition try_finally {A} (m : M A) (fin : M unit) : M A :=
  let (t, r) := m in
  match fin with
  | (t', Ok _) => (t ++ t', r)%list
  | (t', Throw e) => (t ++ t', Throw e)%list
  end.

Notation "x <- m ;; k" := (bind m (fun x => k)) (at level 61, m at next level, right associativity).
Notation "m ;;; k" := (bind m (fun _ => k)) (at level 61, right associativity).

(** The value returned by [processSingleLinkWith*]. *)
Record single := mkSingle {
  updatedLink : string;
  markdown : option string;
  frontmatter : option fm_obj;
  body : option string }.

Section Processor.

Variable E : env.

(** [fetchYouTubeTitle]: never throws. *)
Definition fetchYouTubeTitle (url : string) : M (option string) :=
  emit (EvYouTubeTitle url);;;
  ret (match oembed_title E url with
       | Some t => match trim t with EmptyString => None | t' => Some t' end
       | None => None
       end).

(** Whether [getClippingPath()] returns: it throws [CLIPPING_DIR not
    configured] when [clippingDir] is unset or empty. *)
Definition clipping_dir_set : bool :=
  match cfg_clipping_dir E with Some (String _ _) => true | _ => false end.

(** Persisting a file when [saveToDisk]. *)
Definition save (saveToDisk : bool) (fileName content : string) : M unit :=
  if saveToDisk then
    if write_ok E fileName then emit (EvWrite fileName content)
    else throw ("cannot write " ++ fileName)
  else ret tt.

(** The skip result [{ updatedLink: line, markdown: returnMarkdown ? EmptyString : undefined }]. *)
Definition skip (line : string) (returnMarkdown : bool) : single :=
  mkSingle line (if returnMarkdown then Some EmptyString else None) None None.

(** [youtubeId && !isChannel]: the video id of a single-video link. *)
Definition video_id (task : string) : option string :=
  match getYouTubeId task with
  | Some (String _ _ as id) => if isYouTubeChannel task then None else Some id
  | _ => None
  end.

(** Title lookup, embed construction and persisting of a video link. *)
Definition youtube_embed (canonical id : string) (saveToDisk : bool) : M embed :=
  ytTitle <- fetchYouTubeTitle canonical;;
  let em := buildYouTubeEmbed (today E)
              (match ytTitle with Some t => t | None => EmptyString end) canonical id in
  let fileName := sanitizeFileName (str_or (e_title em) ("YouTube_" ++ id)) ++ ".md" in
  save saveToDisk fileName (e_content em);;;
  ret em.

(** The video branch of both single-link methods. *)
Definition youtube_single (task id : string) (returnMarkdown saveToDisk : bool) : M single :=
  let canonical := canonicalizeYouTubeUrl task (Some id) in
  em <- youtube_embed canonical id saveToDisk;;
  ret (mkSingle (markAsProcessed canonical)
                (if returnMarkdown then Some (e_content em) else None)
                (Some (e_frontmatterObj em)) (Some (e_body em))).

(** The [frontmatterObj] literal of both single-link methods. *)
Definition frontmatter_obj (result : extraction) (pageUrl : string) : fm_obj :=
  [("title", FStr (str_or (x_title result) "Untitled"));
   ("source", FStr (match x_domain result with EmptyString => pageUrl
                                             | d => "https://" ++ d end));
   ("url", FStr pageUrl);
   ("author", FStr (str_or (x_author result) EmptyString));
   ("published", FStr (str_or (x_published result) EmptyString));
   ("clipped", FStr (today E));
   ("tags", FList ["clippings"]);
   ("description", FStr (str_or (x_description result) EmptyString));
   ("image", FStr (str_or (x_image result) EmptyString));
   ("favicon", FStr (str_or (x_favicon result) EmptyString))].

(** [cleanedFrontmatter]: the same filter over [Object.entries]. *)
Definition cleanedFrontmatter (result : extraction) (pageUrl : string) : fm_obj :=
  filter keep_entry (frontmatter_obj result pageUrl).

(** [buildFileContent]. *)
Definition buildFileContent (result : extraction) (url : string) : string :=
  buildMarkdownContent (today E) (x_title result) url (x_domain result) (x_author result)
    (x_published result) (x_description result) (x_image result) (x_favicon result)
    (x_content result).

(** The tail of both [try] blocks once Defuddle returned content: image
    paths fixed, frontmatter and file built, file persisted. *)
Definition extracted (task pageUrl : string) (result0 : extraction)
  (returnMarkdown saveToDisk : bool) : M single :=
  if String.eqb (x_content result0) EmptyString then
    throw ("Failed to extract article content from " ++ pageUrl)
  else
    let result := {| x_title := x_title result0; x_author := x_author result0;
                     x_published := x_published result0;
                     x_description := x_description result0;
                     x_image := x_image result0; x_favicon := x_favicon result0;
                     x_domain := x_domain result0;
                     x_content := fixImagePaths (x_content result0) pageUrl |} in
    let fileContent := buildFileContent result pageUrl in
    let fileName := sanitizeFileName (str_or (x_title result) "Untitled") ++ ".md" in
    save saveToDisk fileName fileContent;;;
    ret (mkSingle (markAsProcessed task)
                  (if returnMarkdown then Some fileContent else None)
                  (Some (cleanedFrontmatter result pageUrl))
                  (Some (x_content result))).

(** The [try] block of [processSingleLinkWithPuppeteer]. *)
Definition render_attempt (line task : string) (returnMarkdown saveToDisk : bool) : M single :=
  emit (EvNavigate task);;;
  match page_goto E task with
  | None => throw ("Navigation failed: " ++ task)
  | Some (contentType, html, pageUrl) =>
      if negb (includes "text/html" contentType) then ret (skip line returnMarkdown)
      else
        emit (EvExtract pageUrl);;;
        match defuddle E html pageUrl with
        | None => throw "Defuddle failed"
        | Some result => extracted task pageUrl result returnMarkdown saveToDisk
        end
  end.

(** The [try] block of [processSingleLinkWithFetch]. *)
Definition fetch_attempt (line task : string) (returnMarkdown saveToDisk : bool) : M single :=
  emit (EvFetch task);;;
  match net_fetch E task with
  | None => throw ("fetch failed: " ++ task)
  | Some resp =>
      if negb (r_ok resp) then throw "HTTP error"
      else if negb (includes "text/html" (r_content_type resp)) then
        ret (skip line returnMarkdown)
      else
        match r_text resp with
        | None => throw "body read failed"
        | Some html =>
            emit (EvExtract task);;;
            match defuddle E html task with
            | None => throw "Defuddle failed"
            | Some result => extracted task task result returnMarkdown saveToDisk
            end
        end
  end.

(** The classification sequence shared by both single-link methods, ending in
    the method's own attempt [attempt line task]. *)
Definition classify_single (link : string) (returnMarkdown saveToDisk : bool)
  (attempt : string -> string -> M single) : M single :=
  let line := trim link in
  if isProcessed line then ret (skip line returnMarkdown)
  else
    let task := sanitizeLink line in
    if negb (isValidHttpLink task) then ret (skip line returnMarkdown)
    else match video_id task with
         | Some id => youtube_single task id returnMarkdown saveToDisk
         | None =>
             if isBlockedDomain task then ret (skip line returnMarkdown)
             else if hasNonHtmlExtension task then ret (skip line returnMarkdown)
             else attempt line task
         end.

(** The stub result of the [allowStub] branch. *)
Definition stub_single (task : string) (returnMarkdown saveToDisk : bool) : M single :=
  let stub := buildStubMarkdown (today E) EmptyString task in
  save saveToDisk (sanitizeFileName "Link_Fallback" ++ ".md") stub;;;
  ret (mkSingle (markAsProcessed task) (if returnMarkdown then Some stub else None)
                (Some []) (Some stub)).

(** [processSingleLinkWithFetch]. *)
Definition processSingleLinkWithFetch (link : string) (returnMarkdown saveToDisk allowStub : bool)
  : M single :=
  classify_single link returnMarkdown saveToDisk (fun line task =>
    try_catch (fetch_attempt line task returnMarkdown saveToDisk) (fun _ =>
      if allowStub then stub_single task returnMarkdown saveToDisk
      else ret (skip line returnMarkdown))).

(** [processSingleLinkWithPuppeteer]: on any throw of its [try] block, the
    fallback [processSingleLinkWithFetch(link, ..., true)]. *)
Definition processSingleLinkWithPuppeteer (link : string) (returnMarkdown saveToDisk : bool)
  : M single :=
  classify_single link returnMarkdown saveToDisk (fun line task =>
    try_catch (render_attempt line task returnMarkdown saveToDisk) (fun _ =>
      processSingleLinkWithFetch link returnMarkdown saveToDisk true)).

(** An entry of [jsonResults]. *)
Record json_item := mkJsonItem {
  j_url : string; j_frontmatter : fm_obj; j_body : string }.

(** The three arrays [processLinks] fills. *)
Record batch := mkBatch {
  updatedLinks : list string;
  markdownResults : list string;
  jsonResults : list json_item }.

Definition empty_batch : batch := mkBatch [] [] [].

(** [updatedLinks.push(l)] followed by
    [if (onLinkProcessed) onLinkProcessed(updatedLinks.length - 1, l)]. *)
Definition push_updated (onLinkProcessed : bool) (b : batch) (l : string) : M batch :=
  let ul := (updatedLinks b ++ [l])%list in
  (if onLinkProcessed then emit (EvCallback (length ul - 1) l) else ret tt);;;
  ret (mkBatch ul (markdownResults b) (jsonResults b)).

Definition push_md (b : batch) (m : string) : batch :=
  mkBatch (updatedLinks b) (markdownResults b ++ [m])%list (jsonResults b).

Definition push_json (b : batch) (j : json_item) : batch :=
  mkBatch (updatedLinks b) (markdownResults b) (jsonResults b ++ [j])%list.

(** [if (returnMarkdown && result.markdown !== undefined) ...] and
    [if (!returnMarkdown && result.frontmatter && result.body) ...]. *)
Definition add_results (returnMarkdown : bool) (link : string) (r : single) (b : batch) : batch :=
  if returnMarkdown then
    match markdown r with Some m => push_md b m | None => b end
  else
    match frontmatter r, body r with
    | Some fm, Some (String _ _ as bd) => push_json b (mkJsonItem link fm bd)
    | _, _ => b
    end.

(** A [pending] entry: [{ link, idx, task }]. *)
Definition pending_item := (string * nat * string)%type.

(** The classification loop of the puppeteer branch of [processLinks]. *)
Fixpoint classify_batch (returnMarkdown saveToDisk onLinkProcessed : bool)
  (links : list string) (processedCount : nat) (b : batch) (pending : list pending_item)
  : M (batch * list pending_item) :=
  match links with
  | [] => ret (b, pending)
  | link :: rest =>
      let line := trim link in
      let task := sanitizeLink line in
      let idx := S processedCount in
      let continue b' p' := classify_batch returnMarkdown saveToDisk onLinkProcessed rest idx b' p' in
      if isProcessed line then
        b' <- push_updated onLinkProcessed b line;; continue b' pending
      else match video_id task with
      | Some id =>
          let canonical := canonicalizeYouTubeUrl task (Some id) in
          em <- youtube_embed canonical id saveToDisk;;
          b' <- push_updated onLinkProcessed b (markAsProcessed canonical);;
          continue (if returnMarkdown then push_md b' (e_content em)
                    else push_json b' (mkJsonItem link (e_frontmatterObj em) (e_body em)))
                   pending
      | None =>
          if negb (isValidHttpLink task) then
            b' <- push_updated onLinkProcessed b line;; continue b' pending
          else if isBlockedDomain task then
            b' <- push_updated onLinkProcessed b line;; continue b' pending
          else if hasNonHtmlExtension task then
            b' <- push_updated onLinkProcessed b line;; continue b' pending
          else continue b (pending ++ [(link, idx, task)])%list
      end
  end.

(** The drain of the pending queue. *)
Fixpoint drain (returnMarkdown saveToDisk onLinkProcessed : bool)
  (pending : list pending_item) (b : batch) : M batch :=
  match pending with
  | [] => ret b
  | (link, _, _) :: rest =>
      r <- processSingleLinkWithPuppeteer link returnMarkdown saveToDisk;;
      b' <- push_updated onLinkProcessed b (updatedLink r);;
      drain returnMarkdown saveToDisk onLinkProcessed rest (add_results returnMarkdown link r b')
  end.

(** The loop of the jsdom branch. *)
Fixpoint jsdom_loop (returnMarkdown saveToDisk onLinkProcessed : bool)
  (links : list string) (b : batch) : M batch :=
  match links with
  | [] => ret b
  | link :: rest =>
      r <- processSingleLinkWithFetch link returnMarkdown saveToDisk false;;
      b' <- push_updated onLinkProcessed b (updatedLink r);;
      jsdom_loop returnMarkdown saveToDisk onLinkProcessed rest (add_results returnMarkdown link r b')
  end.

(** [processLinks] up to the construction of its return value: the arrays it
    fills.  [returnFormat], [parser] and [saveToDisk] are [None] when
    [undefined]; [onLinkProcessed] says whether a callback is given. *)
Definition processLinks_batch (links : list string) (returnFormat : option return_format)
  (parser : option parser) (saveToDisk : option bool) (onLinkProcessed : bool) : M batch :=
  let finalReturnFormat := match returnFormat with Some f => f | None => cfg_return_format E end in
  let finalParser := match parser with Some p => p | None => cfg_parser E end in
  let finalSaveToDisk := match saveToDisk with Some s => s | None => cfg_save_to_disk E end in
  let returnMarkdown := match finalReturnFormat with Md => true | Json => false end in
  (* [if (finalSaveToDisk) Logger.debug(... this.config.getClippingPath() ...)] *)
  if finalSaveToDisk && negb clipping_dir_set then throw "CLIPPING_DIR not configured" else
  match finalParser with
  | Puppeteer =>
      bp <- classify_batch returnMarkdown finalSaveToDisk onLinkProcessed links 0 empty_batch [];;
      let (b, pending) := bp in
      match pending with
      | [] => ret b
      | _ :: _ =>
          if browser_ok E then
            emit EvBrowserInit;;;
            try_finally (drain returnMarkdown finalSaveToDisk onLinkProcessed pending b)
                        (emit EvBrowserClose)
          else throw (browser_error E)
      end
  | Jsdom => jsdom_loop returnMarkdown finalSaveToDisk onLinkProcessed links empty_batch
  end.

(** The value [processLinks] resolves to. *)
Inductive output :=
| OutProcessResult (updated : list string) (md : list string)  (* { updatedLinks, markdown } *)
| OutJsonResults (items : list json_item)                      (* jsonResults *)
| OutUpdatedLinks (updated : list string).                     (* updatedLinks *)

(** [processLinks]. *)
Definition processLinks (links : list string) (returnFormat : option return_format)
  (parser : option parser) (saveToDisk : option bool) (onLinkProcessed : bool) : M output :=
  b <- processLinks_batch links returnFormat parser saveToDisk onLinkProcessed;;
  let returnMarkdown :=
    match match returnFormat with Some f => f | None => cfg_return_format E end with
    | Md => true | Json => false end in
  ret (if returnMarkdown then OutProcessResult (updatedLinks b) (markdownResults b)
       else match jsonResults b with
            | [] => OutUpdatedLinks (updatedLinks b)
            | js => OutJsonResults js
            end).

End Processor.

(** The lines that reach the render or fetch attempt of the single-link
    methods and the pending queue of [processLinks]: not processed, a valid
    link, not a single video, not on a blocked domain, no non-HTML
    extension. *)
Definition eligible (link : string) : bool :=
  let line := trim link in
  let task := sanitizeLink line in
  negb (isProcessed line) && isValidHttpLink task
  && match video_id task with None => true | Some _ => false end
  && negb (isBlockedDomain task) && negb (hasNonHtmlExtension task).

End Processor.

(** ** LavaServer (src/server.ts): the [POST /api] handler *)

Module Server.

Import FileUtils Processor.

(** A request body: [BadRequest] stands for an empty body, invalid JSON or a
    [links] field that is not an array; otherwise the fields, [None] when
    absent ([returnFormat] and [parser] as the strings sent). *)
Inductive request :=
| BadRequest
| Api (links : list string) (returnFormat : option string) (parser : option string)
      (saveToDisk : option bool).

Inductive http_response :=
| RawMarkdown (body : string)        (* Content-Type: text/markdown *)
| JsonResult (result : output)       (* JSON.stringify(result) *)
| JsonError (message : string).      (* { error } with status 400 *)

(** The request's parser, or the configured one. *)
Definition final_parser (E : env) (p : option string) : parser :=
  match p with
  | Some "jsdom" => Jsdom
  | Some "puppeteer" => Puppeteer
  | _ => cfg_parser E
  end.

(** "Force JSON format when multiple links, otherwise use requested format". *)
Definition final_return_format (E : env) (n : nat) (rf : option string) : return_format :=
  if 1 <? n then Json
  else match rf with
       | Some "md" => Md
       | Some "json" => Json
       | _ => cfg_return_format E
       end.

Definition is_md (f : return_format) : bool := match f with Md => true | Json => false end.

(** [processResult.markdown?.[0] || ""]. *)
Definition first_markdown (o : output) : string :=
  match o with
  | OutProcessResult _ (m :: _) => m
  | _ => EmptyString
  end.

(** The [/api] branch of [fetch]. *)
Definition api (E : env) (req : request) : M http_response :=
  match req with
  | BadRequest => ret (JsonError "bad request")
  | Api links rf p sd =>
      let finalParser := final_parser E p in
      let finalReturnFormat := final_return_format E (length links) rf in
      let finalSaveToDisk := match sd with Some b => b | None => cfg_save_to_disk E end in
      try_catch
        (result <- processLinks E links (Some finalReturnFormat) (Some finalParser)
                                (Some finalSaveToDisk) false;;
         ret (if is_md finalReturnFormat && (length links =? 1)
              then RawMarkdown (first_markdown result)
              else JsonResult result))
        (fun msg => ret (JsonError msg))
  end.

(** The response bodies that are JSON arrays. *)
Definition json_array (o : output) : bool :=
  match o with
  | OutProcessResult _ _ => false
  | OutJsonResults _ | OutUpdatedLinks _ => true
  end.

End Server.

(** ** FileWatcher (src/unnamed/part_005): [initialProcess] *)

Module Watcher.

Import LinkUtils Processor.

(** The [pending] array: [{ index, raw }] of every line that is not skipped
    and whose sanitized form is a valid link. *)
Definition pending_lines (lines : list string) : list (nat * string) :=
  filter (fun ir => let line := trim (snd ir) in
                    negb (shouldSkip line) && isValidHttpLink (sanitizeLink line))
         (combine (seq 0 (length lines)) lines).

(** [lines[i] = s]; the indices used are those of [pending], always in
    range. *)
Fixpoint set_nth (lines : list string) (i : nat) (s : string) : list string :=
  match lines, i with
  | [], _ => []
  | _ :: r, O => s :: r
  | x :: r, S j => x :: set_nth r j s
  end.

(** [getLinksFilePath()] up to the resolution of the path: it throws
    [LINKS_FILE not configured] when [linksFile] is unset or empty. *)
Definition getLinksFilePath (E : env) : outcome string :=
  match cfg_links_file E with
  | Some (String c r) => Ok (String c r)
  | _ => Throw "LINKS_FILE not configured"
  end.

(** The [onLinkProcessed] callback, call after call:
    [lines[pending[idx].index] = sanitized], then
    [writeFileSync(linksFile, lines.join("\n"))].  [processLinks] does not
    guard its calls of [onLinkProcessed]: a callback that throws (a failed
    write, or [pending[idx]] undefined) ends the batch, and the error is
    caught by [initialProcess]; the calls before it are those of the run
    without the failure.  The result is the lines of the links file as last
    written; a failed write leaves the file as it was. *)
Fixpoint apply_callbacks (E : env) (pending : list (nat * string)) (lines : list string)
  (cbs : list (nat * string)) : list string :=
  match cbs with
  | [] => lines
  | (idx, sanitized) :: rest =>
      match nth_error pending idx with
      | Some (index, _) =>
          let lines' := set_nth lines index sanitized in
          if links_write_ok E (join (String (ascii_of_nat 10) EmptyString) lines')
          then apply_callbacks E pending lines' rest
          else lines
      | None => lines
      end
  end.

(** [initialProcess]: the lines of the links file at the end, or the error
    that escapes it.  [getLinksFilePath] and [readFileSync] run before the
    [try]; a failed batch is caught and logged. *)
Definition initialProcess (E : env) : outcome (list string) :=
  match getLinksFilePath E with
  | Throw m => Throw m
  | Ok linksFile =>
      match read_file E linksFile with
      | Throw m => Throw m
      | Ok content =>
          let lines := split_on (ascii_of_nat 10) content in
          let pending := pending_lines lines in
          match pending with
          | [] => Ok lines
          | _ :: _ =>
              Ok (apply_callbacks E pending lines
                    (callbacks (fst (processLinks E (map snd pending) (Some Md) None None true))))
          end
      end
  end.

End Watcher.

(** * Concrete environments *)

Module Fixtures.

Import Processor.

(** The error [initializePuppeteer] throws when it finds no Chrome. *)
Definition chrome_missing : string :=
  "Chrome executable not found. Please install with: bunx puppeteer browsers install chrome or bunx puppeteer browsers install chrome-headless-shell".

(** Every collaborator fails: navigation, fetch, Defuddle and the oEmbed
    lookup throw; writes and the browser start succeed.;
    CLIPPING_DIR and LINKS_FILE are set, the links file is empty. *)
Definition env_offline (p : parser) (f : return_format) (save : bool) : env :=
  {| page_goto := fun _ => None;
     net_fetch := fun _ => None;
     defuddle := fun _ _ => None;
     oembed_title := fun _ => None;
     write_ok := fun _ => true;
     browser_ok := true;
     browser_error := chrome_missing;
     today := "2026-10-18";
     cfg_parser := p;
     cfg_return_format := f;
     cfg_save_to_disk := save;
     cfg_clipping_dir := Some "clippings";
     cfg_links_file := Some "links.md";
     read_file := fun _ => Ok EmptyString;
     links_write_ok := fun _ => true |}.

(** The same, with a browser that cannot be started. *)
Definition env_no_browser (p : parser) (f : return_format) (save : bool) : env :=
  {| page_goto := fun _ => None;
     net_fetch := fun _ => None;
     defuddle := fun _ _ => None;
     oembed_title := fun _ => None;
     write_ok := fun _ => true;
     browser_ok := false;
     browser_error := chrome_missing;
     today := "2026-10-18";
     cfg_parser := p;
     cfg_return_format := f;
     cfg_save_to_disk := save;
     cfg_clipping_dir := Some "clippings";
     cfg_links_file := Some "links.md";
     read_file := fun _ => Ok EmptyString;
     links_write_ok := fun _ => true |}.

(** [E] with a links file holding [content]. *)
Definition with_links_file (E : env) (content : string) : env :=
  {| page_goto := page_goto E; net_fetch := net_fetch E; defuddle := defuddle E;
     oembed_title := oembed_title E; write_ok := write_ok E;
     browser_ok := browser_ok E; browser_error := browser_error E; today := today E;
     cfg_parser := cfg_parser E; cfg_return_format := cfg_return_format E;
     cfg_save_to_disk := cfg_save_to_disk E; cfg_clipping_dir := cfg_clipping_dir E;
     cfg_links_file := cfg_links_file E; read_file := fun _ => Ok content;
     links_write_ok := links_write_ok E |}.

(** A links file with a note and a link, read in jsdom mode. *)
Definition links_content : string :=
  "notes" ++ String (ascii_of_nat 10) "https://example.com/a".

Definition links_env : env := with_links_file (env_offline Jsdom Md false) links_content.

(** A page whose article has a title and content but no author. *)
Definition sample_article : extraction :=
  {| x_title := "A post"; x_author := EmptyString; x_published := EmptyString;
     x_description := EmptyString; x_image := EmptyString; x_favicon := EmptyString;
     x_domain := "example.com"; x_content := "Hello" |}.

End Fixtures.

(** * Properties *)

Module Facts.

Import LinkUtils FileUtils Processor Server Watcher.

(** The two cases of the [getClippingPath] check at the start of
    [processLinks]. *)
Ltac clip_case :=
  match goal with
  | |- context [if ?c && negb (clipping_dir_set ?E) then _ else _] =>
      let Hclip := fresh "Hclip" in
      destruct (c && negb (clipping_dir_set E)) eqn:Hclip
  end.

(** ** The effect monad *)

Lemma snd_bind {A B} (m : M A) (f : A -> M B) :
  snd (bind m f) = match snd m with Ok a => snd (f a) | Throw e => Throw e end.
Proof.
  destruct m as [t [a|e]]; simpl; [destruct (f a)|]; reflexivity.
Qed.

Lemma fst_bind {A B} (m : M A) (f : A -> M B) :
  fst (bind m f) = match snd m with Ok a => (fst m ++ fst (f a))%list | Throw _ => fst m end.
Proof.
  destruct m as [t [a|e]]; simpl; [destruct (f a)|]; reflexivity.
Qed.

Lemma snd_try_catch {A} (m : M A) (h : string -> M A) :
  snd (try_catch m h) = match snd m with Ok a => Ok a | Throw e => snd (h e) end.
Proof.
  destruct m as [t [a|e]]; simpl; [|destruct (h e)]; reflexivity.
Qed.

Lemma fst_try_catch {A} (m : M A) (h : string -> M A) :
  fst (try_catch m h) = match snd m with Ok _ => fst m | Throw e => (fst m ++ fst (h e))%list end.
Proof.
  destruct m as [t [a|e]]; simpl; [|destruct (h e)]; reflexivity.
Qed.

(** ** The server's response shape *)

Lemma processLinks_json_shape (E : env) links p s cb o :
  snd (processLinks E links (Some Json) p s cb) = Ok o -> json_array o = true.
Proof.
  unfold processLinks. rewrite snd_bind.
  destruct (snd (processLinks_batch E links (Some Json) p s cb)) as [b|e]; simpl;
    [|discriminate].
  destruct (jsonResults b); intro H; inversion H; reflexivity.
Qed.

(** C9: when more than one link is requested the response is never the raw
    Markdown shape, whatever [returnFormat] says: it is the JSON array that
    [processLinks] resolves to (or the JSON error when it throws).  The raw
    Markdown shape only answers a request with exactly one link whose final
    return format is ["md"]. *)
Theorem api_multi_link_json (E : env) (links : list string) rf p sd
  (Hmany : 1 < length links) :
  (forall s, snd (api E (Api links rf p sd)) <> Ok (RawMarkdown s)) /\
  (forall o,
     snd (processLinks E links (Some Json) (Some (final_parser E p))
            (Some (match sd with Some b => b | None => cfg_save_to_disk E end)) false) = Ok o ->
     snd (api E (Api links rf p sd)) = Ok (JsonResult o) /\ json_array o = true) /\
  (forall links' rf' p' sd' s,
     snd (api E (Api links' rf' p' sd')) = Ok (RawMarkdown s) ->
     length links' = 1 /\ final_return_format E 1 rf' = Md).
Proof.
  assert (Hf : final_return_format E (length links) rf = Json).
  { unfold final_return_format. apply Nat.ltb_lt in Hmany. now rewrite Hmany. }
  split; [|split].
  - intros s. unfold api. rewrite Hf, snd_try_catch, snd_bind. simpl.
    destruct (snd (processLinks _ _ _ _ _ _)); simpl; discriminate.
  - intros o Ho. unfold api. rewrite Hf, snd_try_catch, snd_bind, Ho. simpl.
    split; [reflexivity|]. eapply processLinks_json_shape; eauto.
  - intros links' rf' p' sd' s. unfold api. rewrite snd_try_catch, snd_bind.
    destruct (snd (processLinks _ _ _ _ _ _)) as [o|e]; simpl; [|discriminate].
    destruct (is_md (final_return_format E (length links') rf')) eqn:Hmd;
      destruct (length links' =? 1) eqn:Hn; simpl; try discriminate.
    intros _. apply Nat.eqb_eq in Hn. split; [exact Hn|].
    rewrite Hn in Hmd. destruct (final_return_format E 1 rf'); [reflexivity|discriminate].
Qed.

(** ** Batch shape: one marker per input line *)

Lemma snd_push_updated cb b l :
  snd (push_updated cb b l) =
  Ok (mkBatch (updatedLinks b ++ [l])%list (markdownResults b) (jsonResults b)).
Proof. unfold push_updated. destruct cb; reflexivity. Qed.

Lemma add_results_updated rm link r b :
  updatedLinks (add_results rm link r b) = updatedLinks b.
Proof.
  unfold add_results. destruct rm.
  - destruct (markdown r); reflexivity.
  - destruct (frontmatter r), (body r) as [[|? ?]|]; reflexivity.
Qed.

Ltac step_bind H :=
  rewrite snd_bind in H;
  repeat (rewrite snd_push_updated in H);
  simpl in H.

Lemma classify_batch_length (E : env) rm sd cb :
  forall links n b pend b' pend',
    snd (classify_batch E rm sd cb links n b pend) = Ok (b', pend') ->
    length (updatedLinks b') + length pend' =
    length (updatedLinks b) + length pend + length links.
Proof.
  induction links as [|link rest IH]; intros n b pend b' pend' H; simpl in H |- *.
  - inversion H; subst; simpl; lia.
  - destruct (isProcessed (trim link)).
    { step_bind H. apply IH in H. simpl in H. rewrite length_app in H. simpl in H. lia. }
    destruct (video_id (sanitizeLink (trim link))) as [id|].
    { rewrite snd_bind in H.
      destruct (snd (youtube_embed E _ id sd)) as [em|e]; [|discriminate].
      step_bind H. apply IH in H.
      destruct rm; simpl in H; rewrite length_app in H; simpl in H; lia. }
    destruct (isValidHttpLink (sanitizeLink (trim link))); simpl in H.
    2: { step_bind H. apply IH in H. simpl in H. rewrite length_app in H. simpl in H. lia. }
    destruct (isBlockedDomain (sanitizeLink (trim link))).
    { step_bind H. apply IH in H. simpl in H. rewrite length_app in H. simpl in H. lia. }
    destruct (hasNonHtmlExtension (sanitizeLink (trim link))).
    { step_bind H. apply IH in H. simpl in H. rewrite length_app in H. simpl in H. lia. }
    apply IH in H. rewrite length_app in H. simpl in H. lia.
Qed.

Lemma drain_length (E : env) rm sd cb :
  forall pending b b',
    snd (drain E rm sd cb pending b) = Ok b' ->
    length (updatedLinks b') = length (updatedLinks b) + length pending.
Proof.
  induction pending as [|[[link i] task] rest IH]; intros b b' H; simpl in H.
  - inversion H; subst; simpl; lia.
  - rewrite snd_bind in H.
    destruct (snd (processSingleLinkWithPuppeteer E link rm sd)) as [r|e]; [|discriminate].
    step_bind H. apply IH in H. rewrite add_results_updated in H. simpl in H.
    rewrite length_app in H. simpl in H. simpl. lia.
Qed.

Lemma jsdom_loop_length (E : env) rm sd cb :
  forall links b b',
    snd (jsdom_loop E rm sd cb links b) = Ok b' ->
    length (updatedLinks b') = length (updatedLinks b) + length links.
Proof.
  induction links as [|link rest IH]; intros b b' H; simpl in H.
  - inversion H; subst; simpl; lia.
  - rewrite snd_bind in H.
    destruct (snd (processSingleLinkWithFetch E link rm sd false)) as [r|e]; [|discriminate].
    step_bind H. apply IH in H. rewrite add_results_updated in H. simpl in H.
    rewrite length_app in H. simpl in H. simpl. lia.
Qed.

(** Whenever [processLinks] completes, it has produced exactly one marker per
    input line, on both branches. *)
Lemma processLinks_length (E : env) links rf p sd cb b :
  result_of (processLinks_batch E links rf p sd cb) = Some b ->
  length (updatedLinks b) = length links.
Proof.
  unfold result_of, processLinks_batch. cbv zeta. clip_case; [simpl; discriminate|].
  destruct (match p with Some p0 => p0 | None => cfg_parser E end).
  - rewrite snd_bind.
    destruct (snd (classify_batch E _ _ cb links 0 empty_batch [])) as [[b0 pend]|e] eqn:Hc;
      [|discriminate].
    apply classify_batch_length in Hc. simpl in Hc.
    destruct pend as [|x xs].
    + simpl. intro H; inversion H; subst. simpl in *. lia.
    + remember (x :: xs) as pend eqn:Hp.
      destruct (browser_ok E); [|discriminate].
      rewrite snd_bind. simpl. unfold try_finally.
      match goal with |- context [drain ?a ?r ?s ?c ?l ?b] =>
        pose proof (drain_length a r s c l b) as Hdl; destruct (drain a r s c l b) as [t r'] eqn:Hd
      end.
      simpl. destruct r' as [b1|e]; [|discriminate]. intro H. injection H as <-.
      specialize (Hdl b1 eq_refl). subst pend.
      simpl in *. lia.
  - destruct (snd (jsdom_loop E _ _ cb links empty_batch)) eqn:Hj; [|discriminate].
    intro H; inversion H; subst. apply jsdom_loop_length in Hj. simpl in Hj. lia.
Qed.

(** C1: the marker count is right, but in puppeteer mode the order is not
    the input order: a line skipped during classification is pushed before an
    earlier line that waits in the pending queue, and [onLinkProcessed]
    receives index 0 for what is the second input line. *)
Theorem processLinks_puppeteer_order :
  option_map updatedLinks
    (result_of (processLinks_batch (Fixtures.env_offline Puppeteer Md false)
                  ["https://example.com/a"; "https://example.com/b.pdf"] None None None true))
  = Some ["https://example.com/b.pdf"; "- [x] https://example.com/a"] /\
  callbacks (fst (processLinks_batch (Fixtures.env_offline Puppeteer Md false)
                    ["https://example.com/a"; "https://example.com/b.pdf"] None None None true))
  = [(0, "https://example.com/b.pdf"); (1, "- [x] https://example.com/a")].
Proof. split; vm_compute; reflexivity. Qed.

(** ** The single-link methods on an eligible task *)

Section Eligible.

Variable E : env.
Variables (link : string) (rm sd : bool).

Hypothesis Hp : isProcessed (trim link) = false.
Hypothesis Hv : isValidHttpLink (sanitizeLink (trim link)) = true.
Hypothesis Hy : video_id (sanitizeLink (trim link)) = None.
Hypothesis Hb : isBlockedDomain (sanitizeLink (trim link)) = false.
Hypothesis Hx : hasNonHtmlExtension (sanitizeLink (trim link)) = false.

(** A task that passes every classification check reaches the method's own
    attempt. *)
Lemma classify_single_eligible (attempt : string -> string -> M single) :
  classify_single E link rm sd attempt = attempt (trim link) (sanitizeLink (trim link)).
Proof.
  unfold classify_single. cbv zeta. rewrite Hp, Hv, Hy, Hb, Hx. reflexivity.
Qed.

End Eligible.

Lemma fetches_app t1 t2 : fetches (t1 ++ t2)%list = fetches t1 + fetches t2.
Proof. unfold fetches. rewrite filter_app, length_app. reflexivity. Qed.

Lemma writes_app t1 t2 : writes (t1 ++ t2)%list = (writes t1 ++ writes t2)%list.
Proof. unfold writes. apply flat_map_app. Qed.

Lemma save_no_fetch (E : env) b n c : fetches (fst (save E b n c)) = 0.
Proof. unfold save. destruct b; [destruct (write_ok E n)|]; reflexivity. Qed.

(** A [save] that fails writes nothing. *)
Lemma save_throw_no_write (E : env) b n c e :
  snd (save E b n c) = Throw e -> writes (fst (save E b n c)) = [].
Proof. unfold save. destruct b; [destruct (write_ok E n)|]; simpl; congruence. Qed.

Lemma extracted_no_fetch (E : env) task pu r rm sd :
  fetches (fst (extracted E task pu r rm sd)) = 0.
Proof.
  unfold extracted. destruct (String.eqb (x_content r) EmptyString); [reflexivity|].
  rewrite fst_bind.
  destruct (snd (save E sd _ _)); [rewrite fetches_app|]; rewrite save_no_fetch; reflexivity.
Qed.

(** A failing [extracted] wrote no file. *)
Lemma extracted_throw_no_write (E : env) task pu r rm sd e :
  snd (extracted E task pu r rm sd) = Throw e -> writes (fst (extracted E task pu r rm sd)) = [].
Proof.
  unfold extracted. destruct (String.eqb (x_content r) EmptyString); [reflexivity|].
  rewrite snd_bind, fst_bind.
  destruct (snd (save E sd _ _)) as [[]|e'] eqn:Hs; [simpl; discriminate|].
  intros _. eapply save_throw_no_write; eauto.
Qed.

Lemma render_attempt_no_fetch (E : env) line task rm sd :
  fetches (fst (render_attempt E line task rm sd)) = 0.
Proof.
  unfold render_attempt. simpl.
  destruct (page_goto E task) as [[[ct html] pu]|]; [|reflexivity].
  destruct (negb (includes "text/html" ct)); [reflexivity|]. simpl.
  destruct (defuddle E html pu) as [r|]; [|reflexivity].
  pose proof (extracted_no_fetch E task pu r rm sd) as H.
  destruct (extracted E task pu r rm sd) as [t o]. simpl in *. exact H.
Qed.

(** The fetch strategy performs exactly one [fetch]. *)
Lemma fetch_attempt_one_fetch (E : env) line task rm sd :
  fetches (fst (fetch_attempt E line task rm sd)) = 1.
Proof.
  unfold fetch_attempt. simpl.
  destruct (net_fetch E task) as [resp|]; [|reflexivity].
  destruct (negb (r_ok resp)); [reflexivity|].
  destruct (negb (includes "text/html" (r_content_type resp))); [reflexivity|].
  destruct (r_text resp) as [html|]; [|reflexivity]. simpl.
  destruct (defuddle E html task) as [r|]; [|reflexivity].
  pose proof (extracted_no_fetch E task task r rm sd) as H.
  destruct (extracted E task task r rm sd) as [t o]. unfold fetches in *. simpl in *. rewrite H. reflexivity.
Qed.

(** A failing fetch attempt wrote no file. *)
Lemma fetch_attempt_throw_no_write (E : env) line task rm sd e :
  snd (fetch_attempt E line task rm sd) = Throw e ->
  writes (fst (fetch_attempt E line task rm sd)) = [].
Proof.
  unfold fetch_attempt. simpl.
  destruct (net_fetch E task) as [resp|]; [|reflexivity].
  destruct (negb (r_ok resp)); [reflexivity|].
  destruct (negb (includes "text/html" (r_content_type resp))); [discriminate|].
  destruct (r_text resp) as [html|]; [|reflexivity]. simpl.
  destruct (defuddle E html task) as [r|]; [|reflexivity].
  pose proof (extracted_throw_no_write E task task r rm sd e) as H.
  destruct (extracted E task task r rm sd) as [t o]. simpl in *. exact H.
Qed.

Lemma stub_single_no_fetch (E : env) task rm sd :
  fetches (fst (stub_single E task rm sd)) = 0.
Proof.
  unfold stub_single. rewrite fst_bind.
  destruct (snd (save E sd _ _)); [rewrite fetches_app|]; rewrite save_no_fetch; reflexivity.
Qed.

Lemma sanitize_fallback_name : sanitizeFileName "Link_Fallback" = "Link_Fallback".
Proof. vm_compute. reflexivity. Qed.

Lemma str_app_assoc (a b c : string) : ((a ++ b) ++ c)%string = (a ++ (b ++ c))%string.
Proof. induction a as [|x a IH]; simpl; [reflexivity|now rewrite IH]. Qed.

Lemma suffix_app (x y s : string) :
  (exists pre, y = (pre ++ s)%string) -> exists pre, (x ++ y)%string = (pre ++ s)%string.
Proof. intros [pre ->]. exists (x ++ pre)%string. now rewrite str_app_assoc. Qed.

Lemma stub_body_suffix today title url :
  exists pre, buildStubMarkdown today title url = (pre ++ stub_body url)%string.
Proof.
  unfold buildStubMarkdown. cbv zeta.
  repeat (first [exists EmptyString; reflexivity | apply suffix_app]).
Qed.

(** C2: on an eligible task, when the render attempt throws, the puppeteer
    method runs the fetch method once more on the same link with
    [allowStub] set, and does nothing else after the render attempt; the
    whole call performs exactly one [fetch].  When that fetch attempt
    throws too (and the stub can be written, or is not written), the result
    is the stub: the line is marked processed, and the body ends with the
    fixed explanation followed by the failing URL. *)
Theorem puppeteer_fallback_stub (E : env) (link : string) (rm sd : bool) (e : string)
  (Hp : isProcessed (trim link) = false)
  (Hv : isValidHttpLink (sanitizeLink (trim link)) = true)
  (Hy : video_id (sanitizeLink (trim link)) = None)
  (Hb : isBlockedDomain (sanitizeLink (trim link)) = false)
  (Hx : hasNonHtmlExtension (sanitizeLink (trim link)) = false)
  (Hr : snd (render_attempt E (trim link) (sanitizeLink (trim link)) rm sd) = Throw e) :
  processSingleLinkWithPuppeteer E link rm sd =
    ((fst (render_attempt E (trim link) (sanitizeLink (trim link)) rm sd)
      ++ fst (processSingleLinkWithFetch E link rm sd true))%list,
     snd (processSingleLinkWithFetch E link rm sd true)) /\
  fetches (fst (processSingleLinkWithPuppeteer E link rm sd)) = 1 /\
  (forall e',
     snd (fetch_attempt E (trim link) (sanitizeLink (trim link)) rm sd) = Throw e' ->
     sd = false \/ write_ok E "Link_Fallback.md" = true ->
     exists r,
       snd (processSingleLinkWithPuppeteer E link rm sd) = Ok r /\
       updatedLink r = markAsProcessed (sanitizeLink (trim link)) /\
       exists pre, body r = Some (pre ++ stub_body (sanitizeLink (trim link)))%string).
Proof.
  assert (Hpup : processSingleLinkWithPuppeteer E link rm sd =
    ((fst (render_attempt E (trim link) (sanitizeLink (trim link)) rm sd)
      ++ fst (processSingleLinkWithFetch E link rm sd true))%list,
     snd (processSingleLinkWithFetch E link rm sd true))).
  { unfold processSingleLinkWithPuppeteer. rewrite classify_single_eligible by assumption.
    unfold try_catch.
    destruct (render_attempt E _ _ rm sd) as [t o] eqn:Hra. simpl in Hr. subst o.
    destruct (processSingleLinkWithFetch E link rm sd true); reflexivity. }
  assert (Hfetch : processSingleLinkWithFetch E link rm sd true =
    try_catch (fetch_attempt E (trim link) (sanitizeLink (trim link)) rm sd)
              (fun _ => stub_single E (sanitizeLink (trim link)) rm sd)).
  { unfold processSingleLinkWithFetch. rewrite classify_single_eligible by assumption.
    reflexivity. }
  split; [exact Hpup|split].
  - rewrite Hpup. simpl. rewrite fetches_app, render_attempt_no_fetch, Hfetch, fst_try_catch.
    destruct (snd (fetch_attempt _ _ _ _ _)).
    + apply fetch_attempt_one_fetch.
    + rewrite fetches_app, fetch_attempt_one_fetch, stub_single_no_fetch. reflexivity.
  - intros e' Hf Hw. rewrite Hpup. simpl. rewrite Hfetch, snd_try_catch, Hf.
    unfold stub_single. rewrite snd_bind, sanitize_fallback_name.
    destruct (stub_body_suffix (today E) EmptyString (sanitizeLink (trim link))) as [pre Hpre].
    assert (Hs : snd (save E sd ("Link_Fallback" ++ ".md")
                        (buildStubMarkdown (today E) EmptyString (sanitizeLink (trim link))))
                 = Ok tt).
    { unfold save. destruct sd; [|reflexivity].
      destruct Hw as [Hw|Hw]; [discriminate|]. simpl. rewrite Hw. reflexivity. }
    rewrite Hs. simpl. eexists. split; [reflexivity|]. split; [reflexivity|].
    exists pre. simpl. rewrite Hpre. reflexivity.
Qed.

Lemma puppeteer_fallback_stub_witness :
  snd (processSingleLinkWithPuppeteer (Fixtures.env_offline Puppeteer Md false)
         "https://example.com/a" false false) =
  Ok (mkSingle "- [x] https://example.com/a" None (Some [])
         (Some (buildStubMarkdown "2026-10-18" EmptyString "https://example.com/a"))) /\
  fetches (fst (processSingleLinkWithPuppeteer (Fixtures.env_offline Puppeteer Md false)
                  "https://example.com/a" false false)) = 1.
Proof.
  destruct (puppeteer_fallback_stub (Fixtures.env_offline Puppeteer Md false)
              "https://example.com/a" false false "Navigation failed: https://example.com/a")
    as [_ [Hn _]]; try (vm_compute; reflexivity).
  split; [vm_compute; reflexivity | exact Hn].
Defined.

(** C3: on an eligible task, when the fetch method is called directly (no
    stub) and its attempt throws, the result is the skip result of the
    TRIMMED line: not marked processed, no frontmatter, no body, markdown
    the empty string in Markdown mode; no file is written.  In the jsdom
    branch of [processLinks] such a line gives the trimmed line as its
    marker, no JSON entry, and an empty Markdown entry in Markdown mode;
    the exception is a run with saving on and CLIPPING_DIR unset, which
    throws [CLIPPING_DIR not configured] before any line.  No file is
    written either way. *)
Theorem fetch_direct_failure_unmarked (E : env) (link : string) (rm sd cb : bool) (e : string)
  (Hp : isProcessed (trim link) = false)
  (Hv : isValidHttpLink (sanitizeLink (trim link)) = true)
  (Hy : video_id (sanitizeLink (trim link)) = None)
  (Hb : isBlockedDomain (sanitizeLink (trim link)) = false)
  (Hx : hasNonHtmlExtension (sanitizeLink (trim link)) = false)
  (Hf : snd (fetch_attempt E (trim link) (sanitizeLink (trim link)) rm sd) = Throw e) :
  processSingleLinkWithFetch E link rm sd false =
    (fst (fetch_attempt E (trim link) (sanitizeLink (trim link)) rm sd),
     Ok (mkSingle (trim link) (if rm then Some EmptyString else None) None None)) /\
  writes (fst (processSingleLinkWithFetch E link rm sd false)) = [] /\
  snd (processLinks_batch E [link] (Some (if rm then Md else Json)) (Some Jsdom) (Some sd) cb) =
    (if sd && negb (clipping_dir_set E) then Throw "CLIPPING_DIR not configured"
     else Ok (mkBatch [trim link] (if rm then [EmptyString] else []) [])) /\
  writes (fst (processLinks_batch E [link] (Some (if rm then Md else Json)) (Some Jsdom) (Some sd) cb))
    = [].
Proof.
  assert (Hs : processSingleLinkWithFetch E link rm sd false =
    (fst (fetch_attempt E (trim link) (sanitizeLink (trim link)) rm sd),
     Ok (mkSingle (trim link) (if rm then Some EmptyString else None) None None))).
  { unfold processSingleLinkWithFetch. rewrite classify_single_eligible by assumption.
    unfold try_catch.
    destruct (fetch_attempt E _ _ rm sd) as [t o] eqn:Hfa. simpl in Hf. subst o.
    simpl. rewrite List.app_nil_r. reflexivity. }
  pose proof (fetch_attempt_throw_no_write E (trim link) (sanitizeLink (trim link)) rm sd e Hf)
    as Hw.
  split; [exact Hs|split; [rewrite Hs; exact Hw|]].
  unfold processLinks_batch. cbv beta iota zeta.
  assert (Hrm : match (if rm then Md else Json) with Md => true | Json => false end = rm)
    by (destruct rm; reflexivity).
  rewrite Hrm. destruct (sd && negb (clipping_dir_set E)); [split; reflexivity|].
  simpl jsdom_loop. rewrite Hs.
  unfold push_updated. simpl.
  destruct cb, rm; simpl; rewrite ?writes_app, ?Hw; split; reflexivity.
Qed.

Lemma fetch_direct_failure_unmarked_witness :
  snd (processLinks_batch (Fixtures.env_offline Jsdom Md false) [" https://example.com/a"]
         (Some Md) (Some Jsdom) (Some false) false) =
  Ok (mkBatch ["https://example.com/a"] [EmptyString] []).
Proof.
  destruct (fetch_direct_failure_unmarked (Fixtures.env_offline Jsdom Md false)
              " https://example.com/a" true false false "fetch failed: https://example.com/a")
    as [_ [_ [H _]]]; [(vm_compute; reflexivity) .. | exact H].
Defined.

(** C3 does not hold as stated: the marker of a line whose direct fetch
    fails is the trimmed line, not the line as it was given. *)
Lemma fetch_failure_trims_line :
  option_map updatedLinks
    (result_of (processLinks_batch (Fixtures.env_offline Jsdom Md false)
                  [" https://example.com/a"] None None None false))
  = Some ["https://example.com/a"].
Proof. vm_compute. reflexivity. Qed.

(** ** Lines already marked processed *)

Lemma classify_single_processed (E : env) link rm sd attempt :
  isProcessed (trim link) = true ->
  classify_single E link rm sd attempt = ([], Ok (skip (trim link) rm)).
Proof. intros H. unfold classify_single. cbv zeta. rewrite H. reflexivity. Qed.

Lemma only_callbacks_app t1 t2 :
  only_callbacks (t1 ++ t2)%list = only_callbacks t1 && only_callbacks t2.
Proof. unfold only_callbacks. apply forallb_app. Qed.

Lemma only_callbacks_push cb b l : only_callbacks (fst (push_updated cb b l)) = true.
Proof. unfold push_updated. destruct cb; reflexivity. Qed.

Lemma add_results_skip_json rm link l b :
  jsonResults (add_results rm link (skip l rm) b) = jsonResults b.
Proof. unfold add_results, skip. destruct rm; reflexivity. Qed.

Lemma classify_batch_processed (E : env) rm sd cb :
  forall links n b pend,
    Forall (fun l => isProcessed (trim l) = true) links ->
    only_callbacks (fst (classify_batch E rm sd cb links n b pend)) = true /\
    snd (classify_batch E rm sd cb links n b pend) =
      Ok (mkBatch (updatedLinks b ++ map trim links)%list (markdownResults b) (jsonResults b),
          pend).
Proof.
  induction links as [|l rest IH]; intros n b pend H; inversion H as [|l' rest' Hl Hrest]; subst.
  - destruct b; simpl. rewrite List.app_nil_r. split; reflexivity.
  - simpl. rewrite Hl. rewrite fst_bind, snd_bind, snd_push_updated.
    destruct (IH (S n) (mkBatch (updatedLinks b ++ [trim l])%list (markdownResults b)
                                (jsonResults b)) pend Hrest) as [Ht Hs].
    rewrite only_callbacks_app, only_callbacks_push, Ht, Hs. simpl.
    rewrite <- List.app_assoc. split; reflexivity.
Qed.

Lemma jsdom_loop_processed (E : env) rm sd cb :
  forall links b,
    Forall (fun l => isProcessed (trim l) = true) links ->
    exists b',
      only_callbacks (fst (jsdom_loop E rm sd cb links b)) = true /\
      snd (jsdom_loop E rm sd cb links b) = Ok b' /\
      updatedLinks b' = (updatedLinks b ++ map trim links)%list /\
      jsonResults b' = jsonResults b.
Proof.
  induction links as [|l rest IH]; intros b H; inversion H as [|l' rest' Hl Hrest]; subst.
  - exists b. simpl. rewrite List.app_nil_r. repeat split; reflexivity.
  - simpl. unfold processSingleLinkWithFetch. rewrite classify_single_processed by exact Hl.
    destruct (IH (add_results rm l (skip (trim l) rm)
                    (mkBatch (updatedLinks b ++ [trim l])%list (markdownResults b)
                             (jsonResults b))) Hrest) as [b' [Ht [Hs [Hu Hj]]]].
    exists b'. rewrite fst_bind, snd_bind. simpl.
    rewrite fst_bind, snd_bind, snd_push_updated.
    rewrite only_callbacks_app, only_callbacks_push. simpl. rewrite Ht, Hs.
    rewrite add_results_updated, add_results_skip_json in *. simpl in *.
    rewrite Hu, <- List.app_assoc. repeat split; auto.
Qed.

(** C4: a line whose trimmed form starts with the marker is answered by
    every path with its trimmed form, with no effect at all: both
    single-link methods return the skip result at once, and a batch of such
    lines comes back as the trimmed lines, with no JSON entry, the trace
    holding nothing but [onLinkProcessed] calls.  The exception is a batch
    run with saving on and CLIPPING_DIR unset: it throws [CLIPPING_DIR not
    configured] at once, with no effect. *)
Theorem processed_lines_untouched (E : env) (links : list string)
  (Hall : Forall (fun l => isProcessed (trim l) = true) links) :
  Forall (fun l => forall rm sd allowStub,
            processSingleLinkWithPuppeteer E l rm sd = ([], Ok (skip (trim l) rm)) /\
            processSingleLinkWithFetch E l rm sd allowStub = ([], Ok (skip (trim l) rm)))
         links /\
  (forall rf p sd cb,
     if match sd with Some s => s | None => cfg_save_to_disk E end && negb (clipping_dir_set E)
     then processLinks_batch E links rf p sd cb = ([], Throw "CLIPPING_DIR not configured")
     else exists b,
       snd (processLinks_batch E links rf p sd cb) = Ok b /\
       updatedLinks b = map trim links /\ jsonResults b = [] /\
       only_callbacks (fst (processLinks_batch E links rf p sd cb)) = true).
Proof.
  split.
  - eapply Forall_impl; [|exact Hall]. intros l Hl rm sd a.
    unfold processSingleLinkWithPuppeteer, processSingleLinkWithFetch.
    rewrite !classify_single_processed by exact Hl. split; reflexivity.
  - intros rf p sd cb. unfold processLinks_batch. cbv zeta.
    destruct (match sd with Some s => s | None => cfg_save_to_disk E end && negb (clipping_dir_set E));
      [reflexivity|].
    destruct (match p with Some p0 => p0 | None => cfg_parser E end).
    + set (rm := match match rf with Some f => f | None => cfg_return_format E end with
                 | Md => true | Json => false end).
      set (sd' := match sd with Some s => s | None => cfg_save_to_disk E end).
      destruct (classify_batch_processed E rm sd' cb links 0 empty_batch [] Hall) as [Ht Hs].
      destruct (classify_batch E rm sd' cb links 0 empty_batch []) as [t o]. simpl in Ht, Hs.
      subst o. simpl. eexists. rewrite !List.app_nil_r. repeat split; assumption.
    + edestruct (jsdom_loop_processed E) as [b' [Ht [Hs [Hu Hj]]]]; [exact Hall|].
      exists b'. rewrite Hs. repeat split; [exact Hu|exact Hj|exact Ht].
Qed.

Lemma processed_lines_untouched_witness :
  snd (processLinks_batch (Fixtures.env_offline Puppeteer Md false)
         ["- [x] https://example.com/a"; "  - [x] https://example.com/b  "] None None None true)
  = Ok (mkBatch ["- [x] https://example.com/a"; "- [x] https://example.com/b"] [] []).
Proof.
  destruct (processed_lines_untouched (Fixtures.env_offline Puppeteer Md false)
              ["- [x] https://example.com/a"; "  - [x] https://example.com/b  "])
    as [_ H]; [repeat constructor | ].
  destruct (H None None None true) as [b [Hb _]]. rewrite Hb.
  vm_compute in Hb. exact (eq_sym Hb).
Defined.

(** C4 does not hold as stated: a marker written by a first run can end in
    white space (a video id decoded from [+]), and the second run trims it. *)
Lemma second_run_trims_marker :
  option_map updatedLinks
    (result_of (processLinks_batch (Fixtures.env_offline Puppeteer Json false)
                  ["https://www.youtube.com/watch?v=abc+"] None None None false))
  = Some ["- [x] https://www.youtube.com/watch?v=abc "] /\
  option_map updatedLinks
    (result_of (processLinks_batch (Fixtures.env_offline Puppeteer Json false)
                  ["- [x] https://www.youtube.com/watch?v=abc "] None None None false))
  = Some ["- [x] https://www.youtube.com/watch?v=abc"].
Proof. split; vm_compute; reflexivity. Qed.

Lemma api_multi_link_json_witness :
  1 < length ["https://example.com/a"; "https://example.com/b.pdf"] /\
  snd (api (Fixtures.env_offline Jsdom Md false)
         (Api ["https://example.com/a"; "https://example.com/b.pdf"] (Some "md") None None))
  = Ok (JsonResult (OutUpdatedLinks ["https://example.com/a"; "https://example.com/b.pdf"])).
Proof.
  assert (Hn : 1 < length ["https://example.com/a"; "https://example.com/b.pdf"])
    by (simpl; lia).
  split; [exact Hn|].
  destruct (api_multi_link_json (Fixtures.env_offline Jsdom Md false)
              ["https://example.com/a"; "https://example.com/b.pdf"] (Some "md") None None Hn)
    as [_ [H _]].
  apply (H (OutUpdatedLinks ["https://example.com/a"; "https://example.com/b.pdf"])).
  vm_compute. reflexivity.
Defined.

(** ** Classification order *)

(** C5: the batch loop of the puppeteer branch does not check validity
    before video detection, while both single-link methods do.  The line
    [https:youtu.be/abc] is not a valid link for [isValidHttpLink] but the
    URL parser reads it as [https://youtu.be/abc], a video: the puppeteer
    batch marks it processed with the canonical video URL (and builds the
    embed), the jsdom batch and the puppeteer single-link method leave it as
    it is. *)
Theorem batch_video_before_validity :
  isValidHttpLink (sanitizeLink "https:youtu.be/abc") = false /\
  video_id (sanitizeLink "https:youtu.be/abc") = Some "abc" /\
  option_map updatedLinks
    (result_of (processLinks_batch (Fixtures.env_offline Puppeteer Json false)
                  ["https:youtu.be/abc"] None None None false))
  = Some ["- [x] https://www.youtube.com/watch?v=abc"] /\
  option_map updatedLinks
    (result_of (processLinks_batch (Fixtures.env_offline Jsdom Json false)
                  ["https:youtu.be/abc"] None None None false))
  = Some ["https:youtu.be/abc"] /\
  processSingleLinkWithPuppeteer (Fixtures.env_offline Puppeteer Json false)
    "https:youtu.be/abc" false false = ([], Ok (skip "https:youtu.be/abc" false)).
Proof. repeat split; vm_compute; reflexivity. Qed.

(** ** Frontmatter *)

(** C6: the persisted file's frontmatter block lists exactly the entries of
    the frontmatter returned in the response ([cleanedFrontmatter]), in the
    same order, and none of them is an empty string or an empty list: the
    file omits empty fields just as the response does. *)
Theorem file_frontmatter_is_cleaned (E : env) (r : extraction) (url : string) :
  Forall (fun kv => keep_entry kv = true) (cleanedFrontmatter E r url) /\
  buildFileContent E r url =
    ("---" ++ nl ++ join nl (map render_entry (cleanedFrontmatter E r url)) ++ nl ++ "---" ++ nl
     ++ "# " ++ str_or (x_title r) "Untitled" ++ nl ++ nl ++ x_content r)%string.
Proof.
  split.
  - apply Forall_forall. intros kv Hin. unfold cleanedFrontmatter in Hin.
    apply filter_In in Hin. apply Hin.
  - unfold buildFileContent, buildMarkdownContent, buildFrontmatter, cleanedFrontmatter,
      frontmatter_obj, frontmatter_entries.
    destruct (x_domain r); reflexivity.
Qed.

(** C6 does not hold as stated: an article with no author is written to a
    file whose frontmatter has no [author] line. *)
Lemma file_omits_empty_author :
  map (fun nc => includes "author:" (snd nc))
      (writes (fst (extracted (Fixtures.env_offline Puppeteer Md true)
                      "https://example.com/a" "https://example.com/a"
                      Fixtures.sample_article true true))) = [false] /\
  map (fun nc => includes "title: " (snd nc))
      (writes (fst (extracted (Fixtures.env_offline Puppeteer Md true)
                      "https://example.com/a" "https://example.com/a"
                      Fixtures.sample_article true true))) = [true].
Proof. split; vm_compute; reflexivity. Qed.

(** ** Video links *)

(** C7: the five forms of the same video ([youtu.be], [watch?v=], [shorts],
    [embed], [live]) canonicalise to the same URL, and that URL is the
    marker written back on both single-link methods and on the puppeteer
    batch, whatever the collaborators do (the file is not saved here). *)
Theorem youtube_forms_canonical (E : env) (rm cb : bool) :
  Forall (fun u =>
      canonicalizeYouTubeUrl u (getYouTubeId u) = "https://www.youtube.com/watch?v=abc123" /\
      option_map updatedLink (result_of (processSingleLinkWithPuppeteer E u rm false))
        = Some "- [x] https://www.youtube.com/watch?v=abc123" /\
      option_map updatedLink (result_of (processSingleLinkWithFetch E u rm false false))
        = Some "- [x] https://www.youtube.com/watch?v=abc123")
    ["https://youtu.be/abc123"; "https://www.youtube.com/watch?v=abc123";
     "https://www.youtube.com/shorts/abc123"; "https://www.youtube.com/embed/abc123";
     "https://www.youtube.com/live/abc123"] /\
  option_map updatedLinks
    (result_of (processLinks_batch E
       ["https://youtu.be/abc123"; "https://www.youtube.com/watch?v=abc123";
        "https://www.youtube.com/shorts/abc123"; "https://www.youtube.com/embed/abc123";
        "https://www.youtube.com/live/abc123"]
       (Some (if rm then Md else Json)) (Some Puppeteer) (Some false) cb))
  = Some (repeat "- [x] https://www.youtube.com/watch?v=abc123" 5).
Proof.
  destruct rm, cb; (split;
    [ repeat (apply Forall_cons; [repeat split; vm_compute; reflexivity |]); apply Forall_nil
    | vm_compute; reflexivity ]).
Qed.

(** ** Image paths *)

(** C8: the two examples of the directory heuristic. *)
Theorem image_paths_examples :
  normalize_base "https://example.com/blog/post" = "https://example.com/blog/post/" /\
  fixImagePaths "![alt](img/pic.png)" "https://example.com/blog/post"
    = "![alt](https://example.com/blog/post/img/pic.png)" /\
  normalize_base "https://example.com/blog/post.html" = "https://example.com/blog/post.html" /\
  fixImagePaths "![alt](img/pic.png)" "https://example.com/blog/post.html"
    = "![alt](https://example.com/blog/img/pic.png)".
Proof. repeat split; vm_compute; reflexivity. Qed.

(** ** What [fixImagePaths] leaves alone *)

Lemma str_length_app (a b : string) :
  String.length (a ++ b) = String.length a + String.length b.
Proof. induction a as [|c a IH]; simpl; [reflexivity|now rewrite IH]. Qed.

Lemma span_app (f : ascii -> bool) : forall s a b, span f s = (a, b) -> s = (a ++ b)%string.
Proof.
  induction s as [|c r IH]; simpl; intros a b H.
  - injection H as <- <-. reflexivity.
  - destruct (f c).
    + destruct (span f r) as [a' b'] eqn:Hs. injection H as <- <-.
      simpl. f_equal. now apply IH.
    + injection H as <- <-. reflexivity.
Qed.

Lemma prefix_app (x p y : string) :
  String.prefix x p = true -> String.prefix x (p ++ y) = true.
Proof.
  revert p. induction x as [|c x IH]; intros p H; [destruct (p ++ y)%string; reflexivity|].
  destruct p as [|c' p]; simpl in *; [discriminate|].
  destruct (ascii_dec c c'); [now apply IH|discriminate].
Qed.

Lemma prefix_app_false (x p y : string) :
  String.prefix x (p ++ y) = false -> String.prefix x p = false.
Proof.
  intros H. destruct (String.prefix x p) eqn:Hp; [|reflexivity].
  rewrite (prefix_app x p y Hp) in H. discriminate.
Qed.

(** A match of the image regular expression is the written reference
    followed by the rest, and its target does not start with [http://] or
    [https://]. *)
Ltac char_is c lit H :=
  destruct (ascii_dec c lit) as [->|?];
  [| destruct c as [[] [] [] [] [] [] [] []]; solve [discriminate H | congruence]].

Lemma image_at_shape s alt p rest :
  image_at s = Some (alt, p, rest) ->
  s = ("![" ++ alt ++ "](" ++ p ++ ")" ++ rest)%string /\
  String.prefix "http://" p = false /\ String.prefix "https://" p = false.
Proof.
  intros H. unfold image_at in H.
  destruct s as [|c1 [|c2 r]]; try discriminate H.
  { destruct c1 as [[] [] [] [] [] [] [] []]; discriminate H. }
  char_is c1 "!"%char H. char_is c2 "["%char H.
  destruct (span _ r) as [a a1] eqn:Hs1.
  destruct a1 as [|c3 [|c4 r2]]; try discriminate H.
  { destruct c3 as [[] [] [] [] [] [] [] []]; discriminate H. }
  char_is c3 "]"%char H. char_is c4 "("%char H.
  destruct (String.prefix "http://" r2 || String.prefix "https://" r2) eqn:Hpre;
    [discriminate H|].
  apply orb_false_iff in Hpre as [H1 H2].
  destruct (span _ r2) as [q a2] eqn:Hs2.
  destruct a2 as [|c5 rest']; [discriminate H|].
  char_is c5 ")"%char H.
  injection H as <- <- <-.
  apply span_app in Hs1, Hs2. subst. simpl.
  split; [reflexivity|].
  split; eapply prefix_app_false; eassumption.
Qed.

Lemma image_pieces_skip (x s : string) d :
  image_pieces (String.length x + d) (x ++ s) = image_pieces d s.
Proof. induction x as [|c x IH]; simpl; [reflexivity|exact IH]. Qed.

Lemma image_pieces_equation c r :
  image_pieces 0 (String c r) =
  match image_at (String c r) with
  | Some (alt, p, _) =>
      Image alt p :: image_pieces (String.length alt + String.length p + 4) r
  | None => Text c :: image_pieces 0 r
  end.
Proof. reflexivity. Qed.

Lemma replace_images_equation f c r :
  replace_images f 0 (String c r) =
  match image_at (String c r) with
  | Some (alt, p, _) =>
      (f alt p ++ replace_images f (String.length alt + String.length p + 4) r)%string
  | None => String c (replace_images f 0 r)
  end.
Proof. reflexivity. Qed.

(** The segmentation loses nothing: the pieces, written out, are the body. *)
Lemma image_pieces_text : forall n s,
  String.length s <= n -> concat_map piece_text (image_pieces 0 s) = s.
Proof.
  induction n as [|n IH]; intros s Hl.
  - destruct s; [reflexivity|simpl in Hl; lia].
  - destruct s as [|c r]; [reflexivity|].
    rewrite image_pieces_equation.
    destruct (image_at (String c r)) as [[[alt p] rest]|] eqn:Hi.
    + destruct (image_at_shape _ _ _ _ Hi) as [Hs _].
      injection Hs as -> Hr. subst r.
      set (x := ("[" ++ alt ++ "](" ++ p ++ ")")%string).
      assert (Hx : String "[" (alt ++ String "]" (String "(" (p ++ String ")" rest)))
                   = (x ++ rest)%string)
        by (unfold x; simpl; repeat (rewrite str_app_assoc; simpl); reflexivity).
      assert (Hlx : String.length x = String.length alt + String.length p + 4)
        by (unfold x; simpl; repeat (rewrite str_length_app; simpl); lia).
      rewrite Hx in Hl |- *. rewrite <- (Nat.add_0_r (String.length alt + String.length p + 4)).
      rewrite <- Hlx, image_pieces_skip.
      simpl in Hl. rewrite str_length_app in Hl.
      simpl. rewrite IH by lia. unfold x. simpl.
      repeat (rewrite str_app_assoc; simpl). reflexivity.
    + simpl. f_equal. apply IH. simpl in Hl. lia.
Qed.

Lemma replace_images_pieces (f : string -> string -> string) :
  forall s d, replace_images f d s = concat_map (piece_replaced f) (image_pieces d s).
Proof.
  induction s as [|c r IH]; intros d; [reflexivity|].
  destruct d as [|d]; [|apply IH].
  rewrite replace_images_equation, image_pieces_equation.
  destruct (image_at (String c r)) as [[[alt p] rest]|]; simpl; rewrite IH; reflexivity.
Qed.

Lemma image_pieces_targets : forall s d,
  Forall (fun pc => match pc with
                    | Image _ p => String.prefix "http://" p = false /\
                                   String.prefix "https://" p = false
                    | Text _ => True
                    end) (image_pieces d s).
Proof.
  induction s as [|c r IH]; intros d; [constructor|].
  destruct d as [|d]; [|apply IH].
  rewrite image_pieces_equation.
  destruct (image_at (String c r)) as [[[alt p] rest]|] eqn:Hi; constructor; auto.
  apply image_at_shape in Hi. tauto.
Qed.

(** C10: [fixImagePaths] cuts the body into single characters, which it
    copies, and the image references its regular expression matches, whose
    targets never start with the lower-case [http://] or [https://]; it
    replaces each of these references with [fix_one], which gives back the
    reference as written when the resolution of the target fails. *)
Theorem fixImagePaths_frame (content baseUrl : string) :
  concat_map piece_text (image_pieces 0 content) = content /\
  fixImagePaths content baseUrl =
    concat_map (piece_replaced (fix_one (normalize_base baseUrl))) (image_pieces 0 content) /\
  Forall (fun pc => match pc with
                    | Image _ p => String.prefix "http://" p = false /\
                                   String.prefix "https://" p = false
                    | Text _ => True
                    end) (image_pieces 0 content) /\
  (forall alt p, resolve p (normalize_base baseUrl) = None ->
     fix_one (normalize_base baseUrl) alt p = piece_text (Image alt p)).
Proof.
  split; [apply (image_pieces_text (String.length content)); lia|].
  split; [apply replace_images_pieces|].
  split; [apply image_pieces_targets|].
  intros alt p H. unfold fix_one. rewrite H. reflexivity.
Qed.

(** C10 does not hold as stated: an absolute [http] URL whose scheme is not
    written in lower case is not exempted, and comes back normalised. *)
Lemma uppercase_scheme_rewritten :
  fixImagePaths "![a](HTTP://Example.com/a.png)" "https://example.com/"
  = "![a](http://example.com/a.png)".
Proof. vm_compute. reflexivity. Qed.

(** ** Further properties of the code *)


Lemma rev_str_acc (s acc : string) : rev_str s acc = (rev_str s EmptyString ++ acc)%string.
Proof.
  revert acc; induction s as [|c s IH]; intro acc; simpl; [reflexivity|].
  rewrite IH, (IH (String c EmptyString)), str_app_assoc; reflexivity.
Qed.

Lemma rev_str_app (a b acc : string) : rev_str (a ++ b) acc = rev_str b (rev_str a acc).
Proof.
  revert acc; induction a as [|c a IH]; intro acc; simpl; [reflexivity|apply IH].
Qed.

Lemma trim_start_app (a b : string) :
  trim_start (a ++ b) = match trim_start a with EmptyString => trim_start b | t => (t ++ b)%string end.
Proof.
  induction a as [|c a IH]; simpl; [reflexivity|].
  destruct (is_ws c); [exact IH|reflexivity].
Qed.

Lemma trim_end_cons (c : ascii) (s : string) :
  trim_end (String c s) =
  if String.eqb (trim_end s) EmptyString && is_ws c then EmptyString
  else String c (trim_end s).
Proof.
  unfold trim_end; simpl.
  rewrite (rev_str_acc s (String c EmptyString)), trim_start_app.
  destruct (trim_start (rev_str s EmptyString)) as [|d r] eqn:Ht; simpl.
  - destruct (is_ws c); reflexivity.
  - rewrite rev_str_app; simpl. rewrite (rev_str_acc r (String d EmptyString)).
    destruct (rev_str r EmptyString ++ String d EmptyString)%string eqn:He.
    + destruct (rev_str r EmptyString); discriminate.
    + reflexivity.
Qed.

Lemma trim_end_nonws (c : ascii) (s : string) :
  is_ws c = false -> trim_end (String c s) = String c (trim_end s).
Proof. intro H; rewrite trim_end_cons, H, andb_false_r; reflexivity. Qed.

(** A marked line is recognised as processed, and skipped, whatever the
    link it marks. *)
Theorem markAsProcessed_isProcessed (link : string) :
  isProcessed (markAsProcessed link) = true /\ shouldSkip (markAsProcessed link) = true.
Proof.
  assert (H : isProcessed (markAsProcessed link) = true).
  { unfold isProcessed, trim, markAsProcessed; simpl.
    rewrite (trim_end_nonws "-") by reflexivity.
    rewrite (trim_end_cons " ").
    rewrite (trim_end_nonws "[") by reflexivity.
    rewrite (trim_end_nonws "x") by reflexivity.
    rewrite (trim_end_nonws "]") by reflexivity.
    simpl. unfold starts_with; destruct (trim_end (String " " link)); reflexivity. }
  split; [exact H|]. unfold shouldSkip; rewrite H, orb_true_r; reflexivity.
Qed.

Lemma split_on_no_sep (sep : ascii) (u : string) :
  includes_char sep u = false -> split_on sep u = [u].
Proof.
  induction u as [|c u IH]; simpl; [reflexivity|].
  intro H; apply orb_false_elim in H as [H1 H2].
  rewrite Ascii.eqb_sym, H1, IH by exact H2; reflexivity.
Qed.

Lemma split_on_app_sep (sep : ascii) (u q : string) :
  includes_char sep u = false -> split_on sep (u ++ String sep q) = u :: split_on sep q.
Proof.
  induction u as [|c u IH]; simpl; intro H.
  - rewrite Ascii.eqb_refl; reflexivity.
  - apply orb_false_elim in H as [H1 H2].
    rewrite Ascii.eqb_sym, H1, IH by exact H2; reflexivity.
Qed.

(** The extension check looks at the part before the first [?] only: a
    query string neither adds nor hides a download extension. *)
Theorem hasNonHtmlExtension_query (u q : string) :
  includes_char "?" u = false ->
  hasNonHtmlExtension (u ++ String "?" q) = hasNonHtmlExtension u.
Proof.
  intro H; unfold hasNonHtmlExtension.
  rewrite split_on_app_sep by exact H; simpl; rewrite (split_on_no_sep _ u H); reflexivity.
Qed.





Lemma str_all_app (p : ascii -> bool) (a b : string) :
  str_all p (a ++ b) = str_all p a && str_all p b.
Proof. induction a as [|c a IH]; simpl; [reflexivity|rewrite IH, andb_assoc; reflexivity]. Qed.

Lemma str_all_impl (p q : ascii -> bool) (s : string) :
  (forall c, p c = true -> q c = true) -> str_all p s = true -> str_all q s = true.
Proof.
  intro Hpq; induction s as [|c s IH]; simpl; [reflexivity|].
  intro H; apply andb_prop in H as [H1 H2]; rewrite Hpq, IH; auto.
Qed.

Lemma str_all_drop_while (p f : ascii -> bool) (s : string) :
  str_all p s = true -> str_all p (drop_while f s) = true.
Proof.
  induction s as [|c s IH]; simpl; [reflexivity|].
  intro H; destruct (f c); [|exact H]. apply IH; apply andb_prop in H; tauto.
Qed.

Lemma str_all_trim_start (p : ascii -> bool) (s : string) :
  str_all p s = true -> str_all p (trim_start s) = true.
Proof.
  induction s as [|c s IH]; simpl; [reflexivity|].
  intro H; destruct (is_ws c); [|exact H]. apply IH; apply andb_prop in H; tauto.
Qed.

Lemma str_all_rev_str (p : ascii -> bool) (s acc : string) :
  str_all p (rev_str s acc) = str_all p s && str_all p acc.
Proof.
  revert acc; induction s as [|c s IH]; intro acc; simpl; [reflexivity|].
  rewrite IH; simpl. destruct (p c), (str_all p s), (str_all p acc); reflexivity.
Qed.

Lemma str_all_trim (p : ascii -> bool) (s : string) :
  str_all p s = true -> str_all p (trim s) = true.
Proof.
  intro H; unfold trim, trim_end.
  rewrite str_all_rev_str, andb_true_r. apply str_all_trim_start.
  rewrite str_all_rev_str, andb_true_r. apply str_all_trim_start, H.
Qed.

Lemma str_all_substring (p : ascii -> bool) (n m : nat) (s : string) :
  str_all p s = true -> str_all p (substring n m s) = true.
Proof.
  revert n m; induction s as [|c s IH]; intros n m H; destruct n, m; simpl; try reflexivity.
  - simpl in H; apply andb_prop in H as [H1 H2]; rewrite H1; simpl; apply IH, H2.
  - simpl in H; apply andb_prop in H as [H1 H2]; apply IH, H2.
  - simpl in H; apply andb_prop in H as [H1 H2]; apply IH, H2.
Qed.

Lemma str_all_map_chars (p p' : ascii -> bool) (f : ascii -> string) (s : string) :
  (forall c, p c = true -> str_all p' (f c) = true) ->
  str_all p s = true -> str_all p' (map_chars f s) = true.
Proof.
  intro Hf; induction s as [|c s IH]; simpl; [reflexivity|].
  intro H; apply andb_prop in H as [H1 H2]. rewrite str_all_app, Hf, IH; auto.
Qed.

Lemma str_all_collapse_runs (p p' q : ascii -> bool) (rep : string) (b : bool) (s : string) :
  (forall c, p c = true -> q c = false -> p' c = true) -> str_all p' rep = true ->
  str_all p s = true -> str_all p' (collapse_runs q rep b s) = true.
Proof.
  intros Hp Hr; revert b; induction s as [|c s IH]; intros b H; simpl; [reflexivity|].
  simpl in H; apply andb_prop in H as [H1 H2].
  destruct (q c) eqn:Hq.
  - rewrite str_all_app, IH by exact H2. destruct b; [reflexivity|rewrite Hr; reflexivity].
  - simpl; rewrite Hp, IH; auto.
Qed.

Lemma length_trim_start (s : string) : String.length (trim_start s) <= String.length s.
Proof. induction s as [|c s IH]; simpl; [lia|destruct (is_ws c); simpl; lia]. Qed.

Lemma length_rev_str (s acc : string) :
  String.length (rev_str s acc) = String.length s + String.length acc.
Proof. revert acc; induction s as [|c s IH]; intro acc; simpl; [reflexivity|rewrite IH; simpl; lia]. Qed.

Lemma length_trim (s : string) : String.length (trim s) <= String.length s.
Proof.
  unfold trim, trim_end. rewrite length_rev_str; simpl.
  pose proof (length_trim_start (rev_str (trim_start s) EmptyString)).
  rewrite length_rev_str in H; simpl in H. pose proof (length_trim_start s). lia.
Qed.

Lemma length_substring0 (m : nat) (s : string) : String.length (substring 0 m s) <= m.
Proof.
  revert m; induction s as [|c s IH]; intro m; destruct m; simpl; try lia.
  specialize (IH m); lia.
Qed.

Lemma rev_str_involutive (s : string) : rev_str (rev_str s EmptyString) EmptyString = s.
Proof.
  induction s as [|c s IH]; simpl; [reflexivity|].
  rewrite (rev_str_acc s (String c EmptyString)), rev_str_app; simpl. rewrite IH; reflexivity.
Qed.

Lemma trim_no_ws (s : string) : str_all (fun c => negb (is_ws c)) s = true -> trim s = s.
Proof.
  intro H. assert (Hs : forall u, str_all (fun c => negb (is_ws c)) u = true -> trim_start u = u).
  { intros [|c u] Hu; [reflexivity|]. simpl in Hu |- *.
    destruct (is_ws c); [discriminate|reflexivity]. }
  unfold trim, trim_end. rewrite (Hs s H), Hs; [apply rev_str_involutive|].
  rewrite str_all_rev_str, H; reflexivity.
Qed.

(** Every file name [sanitizeFileName] returns is non-empty, at most 200
    characters long, made of printable ASCII without white space, without
    the double quote and without any of [:/\?%*|<>], and does not start
    with a dot. *)
Theorem sanitizeFileName_safe (name : string) :
  sanitizeFileName name <> EmptyString /\
  String.length (sanitizeFileName name) <= 200 /\
  str_all safe_name_char (sanitizeFileName name) = true /\
  (forall r, sanitizeFileName name <> String "." r).
Proof.
  set (F := (":/\?%*|<>" ++ dqs)).
  set (pr := fun c => (32 <=? code c) && (code c <=? 126)).
  set (nf := fun c => negb (in_set F c)).
  unfold sanitizeFileName. fold F.
  set (s2 := map_chars _ (replace_dashes name)).
  assert (H2 : str_all nf s2 = true).
  { apply (str_all_map_chars (fun _ => true)); [|clear; induction (replace_dashes name); simpl; auto].
    intros c _. destruct (in_set F c) eqn:Hc; simpl; [reflexivity|].
    unfold nf; rewrite Hc; reflexivity. }
  set (s3 := map_chars _ s2).
  assert (H3 : str_all (fun c => pr c && nf c) s3 = true).
  { apply (str_all_map_chars nf); [|exact H2].
    intros c Hc. fold (pr c). destruct (pr c) eqn:Hp; simpl; [rewrite Hp, Hc; reflexivity|reflexivity]. }
  set (s4 := collapse_runs is_ws "_" false s3).
  assert (H4 : str_all safe_name_char s4 = true).
  { apply (str_all_collapse_runs (fun c => pr c && nf c)); [|reflexivity|exact H3].
    intros c Hc Hw. unfold safe_name_char. fold F. rewrite Hw.
    apply andb_prop in Hc as [Hc1 Hc2]. unfold pr in Hc1; unfold nf in Hc2.
    rewrite Hc1, Hc2; reflexivity. }
  set (s5 := collapse_runs _ "-" false s4).
  assert (H5 : str_all safe_name_char s5 = true)
    by (apply (str_all_collapse_runs safe_name_char); auto).
  set (s6 := collapse_runs _ "_" false s5).
  assert (H6 : str_all safe_name_char s6 = true)
    by (apply (str_all_collapse_runs safe_name_char); auto).
  set (edge := fun c => _ || _ || is_ws c).
  set (s7 := rev_str _ EmptyString).
  assert (H7 : str_all safe_name_char s7 = true).
  { unfold s7. rewrite str_all_rev_str, andb_true_r. apply str_all_drop_while.
    rewrite str_all_rev_str, andb_true_r. apply str_all_drop_while, str_all_trim, H6. }
  set (s8 := drop_while _ s7).
  assert (H8 : str_all safe_name_char s8 = true) by (apply str_all_drop_while, H7).
  assert (H8d : forall r, s8 <> String "." r).
  { unfold s8. clear. induction s7 as [|c s IH]; simpl; [discriminate|].
    destruct (Ascii.eqb c ".") eqn:Hc; [exact IH|].
    intros r Hr; inversion Hr; subst c; discriminate. }
  assert (Hnw : str_all (fun c => negb (is_ws c)) (substring 0 200 s8) = true).
  { apply str_all_substring. revert H8; apply str_all_impl.
    intros c Hc; unfold safe_name_char in Hc; apply andb_prop in Hc; tauto. }
  rewrite (trim_no_ws _ Hnw).
  pose proof (length_substring0 200 s8) as Hl.
  destruct s8 as [|c r] eqn:Hs8; simpl.
  - split; [discriminate|]. split; [simpl; lia|]. split; [reflexivity|]. discriminate.
  - split; [discriminate|]. split; [simpl in Hl; lia|]. split.
    + change (str_all safe_name_char (substring 0 200 (String c r)) = true).
      apply str_all_substring, H8.
    + intros r' Hr'; inversion Hr'; subst c. apply (H8d r); reflexivity.
Qed.

Lemma image_at_prefix s alt p rest :
  image_at s = Some (alt, p, rest) -> String.prefix "![" s = true.
Proof.
  intro H. apply image_at_shape in H as [-> _]. exact (prefix_app "![" "![" _ eq_refl).
Qed.

(** A body without ["!["] comes out of [fixImagePaths] unchanged. *)
Theorem fixImagePaths_no_image (content baseUrl : string) :
  includes "![" content = false -> fixImagePaths content baseUrl = content.
Proof.
  unfold fixImagePaths. generalize (fix_one (normalize_base baseUrl)) as f. intro f.
  induction content as [|c r IH]; intro H; [reflexivity|].
  simpl in H. apply orb_false_elim in H as [H1 H2].
  rewrite replace_images_equation.
  destruct (image_at (String c r)) as [[[alt p] rest]|] eqn:Hi.
  - apply image_at_prefix in Hi. simpl in Hi, H1. rewrite Hi in H1. discriminate.
  - rewrite IH by exact H2. reflexivity.
Qed.

(** The frontmatter always opens with the quoted title line, ["Untitled"]
    when the title is empty, followed by further lines. *)
Theorem buildFrontmatter_title_first today title url domain author published description image favicon :
  exists rest,
    buildFrontmatter today title url domain author published description image favicon =
    ("title: " ++ dqs ++ escape_quotes (str_or title "Untitled") ++ dqs ++ nl ++ rest)%string.
Proof.
  unfold buildFrontmatter, frontmatter_entries.
  match goal with |- context [filter keep_entry (?x :: ?rest)] =>
    change (filter keep_entry (x :: rest))
      with (if keep_entry x then x :: filter keep_entry rest else filter keep_entry rest);
    assert (HL : filter keep_entry rest <> [])
      by (intro H0; assert (Hin : In ("tags", FList ["clippings"]) (filter keep_entry rest))
            by (apply filter_In; split; [simpl; tauto|reflexivity]);
          rewrite H0 in Hin; destruct Hin);
    destruct (filter keep_entry rest) as [|kv L'] eqn:HL'; [congruence|]
  end.
  assert (Ht : keep_entry ("title", FStr (str_or title "Untitled")) = true)
    by (destruct title; reflexivity).
  rewrite Ht.
  exists (join nl (map render_entry (kv :: L'))).
  change (join nl (map render_entry (("title", FStr (str_or title "Untitled")) :: kv :: L')))
    with (render_entry ("title", FStr (str_or title "Untitled")) ++ nl
          ++ join nl (map render_entry (kv :: L')))%string.
  unfold render_entry at 1. simpl fst. simpl snd. cbv iota beta. rewrite !str_app_assoc. reflexivity.
Qed.


Lemma Forall_bind {A B} (P : event -> Prop) (m : M A) (f : A -> M B) :
  Forall P (fst m) -> (forall a, snd m = Ok a -> Forall P (fst (f a))) ->
  Forall P (fst (bind m f)).
Proof.
  intros H1 H2. rewrite fst_bind. destruct (snd m) as [a|e] eqn:Hm; [|exact H1].
  apply Forall_app; split; [exact H1|apply H2; reflexivity].
Qed.

Lemma Forall_try_catch {A} (P : event -> Prop) (m : M A) (h : string -> M A) :
  Forall P (fst m) -> (forall e, snd m = Throw e -> Forall P (fst (h e))) ->
  Forall P (fst (try_catch m h)).
Proof.
  intros H1 H2. rewrite fst_try_catch. destruct (snd m) as [a|e] eqn:Hm; [exact H1|].
  apply Forall_app; split; [exact H1|apply H2; reflexivity].
Qed.

Lemma fst_try_finally {A} (m : M A) (fin : M unit) :
  fst (try_finally m fin) = (fst m ++ fst fin)%list.
Proof. destruct m as [t r], fin as [t' [[]|e]]; reflexivity. Qed.

Lemma snd_try_finally {A} (m : M A) (fin : M unit) :
  snd (try_finally m fin) = match snd fin with Ok _ => snd m | Throw e => Throw e end.
Proof. destruct m as [t r], fin as [t' [[]|e]]; reflexivity. Qed.

Ltac tr_step :=
  match goal with
  | |- Forall _ (fst (bind _ _)) => apply Forall_bind; [|intros ? ?]
  | |- Forall _ (fst (try_catch _ _)) => apply Forall_try_catch; [|intros ? ?]
  | |- Forall _ (fst (ret _)) => constructor
  | |- Forall _ (fst (throw _)) => constructor
  | |- Forall _ (fst (emit _)) => constructor; [|constructor]
  | |- Forall _ (fst (if ?b then _ else _)) => destruct b
  | |- Forall _ (fst (match ?x with _ => _ end)) => destruct x
  end.

(** The events of a computation that neither requests a URL nor starts the
    browser nor calls back. *)
Lemma save_trace (E : env) sd n c :
  Forall (fun e => single_event e = true /\ requested e = None) (fst (save E sd n c)).
Proof. unfold save. repeat tr_step; auto. Qed.

Lemma youtube_embed_trace (E : env) c id sd :
  Forall (fun e => single_event e = true /\ requested e = None) (fst (youtube_embed E c id sd)).
Proof.
  unfold youtube_embed, fetchYouTubeTitle. repeat tr_step; auto using save_trace.
Qed.

Lemma extracted_trace (E : env) task pu r rm sd :
  Forall (fun e => single_event e = true /\ requested e = None) (fst (extracted E task pu r rm sd)).
Proof. unfold extracted. repeat tr_step; auto using save_trace. Qed.

Lemma stub_single_trace (E : env) task rm sd :
  Forall (fun e => single_event e = true /\ requested e = None) (fst (stub_single E task rm sd)).
Proof. unfold stub_single. repeat tr_step; auto using save_trace. Qed.

Lemma youtube_single_trace (E : env) task id rm sd :
  Forall (fun e => single_event e = true /\ requested e = None) (fst (youtube_single E task id rm sd)).
Proof. unfold youtube_single. repeat tr_step; auto using youtube_embed_trace. Qed.

Lemma render_attempt_trace (E : env) line task rm sd :
  Forall (fun e => single_event e = true /\ forall t, requested e = Some t -> t = task)
    (fst (render_attempt E line task rm sd)).
Proof.
  unfold render_attempt. repeat tr_step; simpl; try (split; [reflexivity|intros t Ht; congruence]).
  all: try (eapply Forall_impl; [|apply extracted_trace]; simpl; intros ev [H1 H2]; split;
            [exact H1|intros t Ht; congruence]).
Qed.

Lemma fetch_attempt_trace (E : env) line task rm sd :
  Forall (fun e => single_event e = true /\ (forall t, e <> EvNavigate t) /\
                   forall t, requested e = Some t -> t = task)
    (fst (fetch_attempt E line task rm sd)).
Proof.
  unfold fetch_attempt. repeat tr_step; simpl;
    try (split; [reflexivity|split; [discriminate|intros t Ht; congruence]]).
  all: try (eapply Forall_impl; [|apply extracted_trace]; simpl; intros ev [H1 H2];
            split; [exact H1|split; [intros t Ht; subst ev; discriminate|intros t Ht; congruence]]).
Qed.

Lemma classify_single_trace (E : env) link rm sd att (R : event -> Prop) :
  (forall e, single_event e = true -> requested e = None -> R e) ->
  (eligible link = true -> Forall R (fst (att (trim link) (sanitizeLink (trim link))))) ->
  Forall R (fst (classify_single E link rm sd att)).
Proof.
  intros HR Hatt. unfold classify_single. cbv zeta.
  destruct (isProcessed (trim link)) eqn:Hp; [constructor|].
  destruct (isValidHttpLink (sanitizeLink (trim link))) eqn:Hv; simpl; [|constructor].
  destruct (video_id (sanitizeLink (trim link))) as [id|] eqn:Hy.
  - eapply Forall_impl; [|apply youtube_single_trace]. intros ev [H1 H2]; auto.
  - destruct (isBlockedDomain (sanitizeLink (trim link))) eqn:Hb; [constructor|].
    destruct (hasNonHtmlExtension (sanitizeLink (trim link))) eqn:Hx; [constructor|].
    apply Hatt. unfold eligible. rewrite Hp, Hv, Hy, Hb, Hx. reflexivity.
Qed.

Lemma fetch_single_trace (E : env) link rm sd st :
  Forall (fun e => single_event e = true /\ (forall t, e <> EvNavigate t) /\
                   forall t, requested e = Some t -> t = sanitizeLink (trim link) /\ eligible link = true)
    (fst (processSingleLinkWithFetch E link rm sd st)).
Proof.
  unfold processSingleLinkWithFetch. apply classify_single_trace.
  - intros ev H1 H2. split; [exact H1|split; [intros t Ht; subst ev; discriminate|intros t Ht; congruence]].
  - intro Hel. apply Forall_try_catch.
    + eapply Forall_impl; [|apply fetch_attempt_trace]. intros ev [H1 [H2 H3]].
      split; [exact H1|split; [exact H2|intros t Ht; split; [apply H3, Ht|exact Hel]]].
    + intros e _. destruct st; [|constructor].
      eapply Forall_impl; [|apply stub_single_trace]. intros ev [H1 H2].
      split; [exact H1|split; [intros t Ht; subst ev; discriminate|intros t Ht; congruence]].
Qed.

Lemma puppeteer_single_trace (E : env) link rm sd :
  Forall (fun e => single_event e = true /\
                   forall t, requested e = Some t -> t = sanitizeLink (trim link) /\ eligible link = true)
    (fst (processSingleLinkWithPuppeteer E link rm sd)).
Proof.
  unfold processSingleLinkWithPuppeteer. apply classify_single_trace.
  - intros ev H1 H2. split; [exact H1|intros t Ht; congruence].
  - intro Hel. apply Forall_try_catch.
    + eapply Forall_impl; [|apply render_attempt_trace]. intros ev [H1 H2].
      split; [exact H1|intros t Ht; split; [apply H2, Ht|exact Hel]].
    + intros e _. eapply Forall_impl; [|apply fetch_single_trace]. intros ev [H1 [_ H3]].
      split; [exact H1|exact H3].
Qed.

Lemma push_updated_trace (P : event -> Prop) cb b l :
  (forall i l', P (EvCallback i l')) -> Forall P (fst (push_updated cb b l)).
Proof. intro H. unfold push_updated. destruct cb; simpl; auto. Qed.

Lemma classify_batch_trace (E : env) rm sd cb (P : event -> Prop) :
  (forall e, single_event e = true -> requested e = None -> P e) ->
  (forall i l, P (EvCallback i l)) ->
  forall links n b pend, Forall P (fst (classify_batch E rm sd cb links n b pend)).
Proof.
  intros HP HC. induction links as [|link rest IH]; intros n b pend; simpl; [constructor|].
  destruct (isProcessed (trim link)).
  { apply Forall_bind; [apply push_updated_trace, HC|intros; apply IH]. }
  destruct (video_id (sanitizeLink (trim link))) as [id|].
  { apply Forall_bind.
    - eapply Forall_impl; [|apply youtube_embed_trace]. intros ev [H1 H2]; auto.
    - intros em _. apply Forall_bind; [apply push_updated_trace, HC|intros; apply IH]. }
  destruct (isValidHttpLink (sanitizeLink (trim link))); simpl.
  2: { apply Forall_bind; [apply push_updated_trace, HC|intros; apply IH]. }
  destruct (isBlockedDomain (sanitizeLink (trim link))).
  { apply Forall_bind; [apply push_updated_trace, HC|intros; apply IH]. }
  destruct (hasNonHtmlExtension (sanitizeLink (trim link))).
  { apply Forall_bind; [apply push_updated_trace, HC|intros; apply IH]. }
  apply IH.
Qed.

Lemma classify_batch_pending (E : env) rm sd cb (L : list string) :
  forall links n b pend b' pend',
    (forall l, In l links -> In l L) ->
    Forall (fun it : pending_item => In (fst (fst it)) L /\ eligible (fst (fst it)) = true) pend ->
    snd (classify_batch E rm sd cb links n b pend) = Ok (b', pend') ->
    Forall (fun it : pending_item => In (fst (fst it)) L /\ eligible (fst (fst it)) = true) pend'.
Proof.
  induction links as [|link rest IH]; intros n b pend b' pend' HL Hp H; simpl in H.
  - inversion H; subst; exact Hp.
  - assert (HL' : forall l, In l rest -> In l L) by (intros l Hl; apply HL; right; exact Hl).
    destruct (isProcessed (trim link)) eqn:Hpr.
    { step_bind H. eapply IH; eauto. }
    destruct (video_id (sanitizeLink (trim link))) as [id|] eqn:Hy.
    { rewrite snd_bind in H.
      destruct (snd (youtube_embed E _ id sd)) as [em|e]; [|discriminate].
      step_bind H. eapply IH; eauto. }
    destruct (isValidHttpLink (sanitizeLink (trim link))) eqn:Hv; simpl in H.
    2: { step_bind H. eapply IH; eauto. }
    destruct (isBlockedDomain (sanitizeLink (trim link))) eqn:Hb.
    { step_bind H. eapply IH; eauto. }
    destruct (hasNonHtmlExtension (sanitizeLink (trim link))) eqn:Hx.
    { step_bind H. eapply IH; eauto. }
    eapply IH; [exact HL'| |exact H].
    apply Forall_app; split; [exact Hp|]. constructor; [|constructor]. simpl. split.
    + apply HL; left; reflexivity.
    + unfold eligible. rewrite Hpr, Hv, Hy, Hb, Hx. reflexivity.
Qed.

Lemma drain_trace (E : env) rm sd cb (L : list string) :
  forall pending b,
    Forall (fun it : pending_item => In (fst (fst it)) L) pending ->
    Forall (fun e => browser_event e = false /\
                     forall t, requested e = Some t ->
                               exists l, In l L /\ eligible l = true /\ t = sanitizeLink (trim l))
      (fst (drain E rm sd cb pending b)).
Proof.
  induction pending as [|[[link i] task] rest IH]; intros b Hp; simpl; [constructor|].
  inversion Hp as [|x xs Hx Hrest]; subst; simpl in Hx.
  apply Forall_bind.
  - eapply Forall_impl; [|apply puppeteer_single_trace]. intros ev [H1 H2].
    split; [destruct ev; try discriminate; reflexivity|].
    intros t Ht. destruct (H2 t Ht) as [-> He]. exists link; auto.
  - intros r _. apply Forall_bind.
    + apply push_updated_trace. intros; split; [reflexivity|discriminate].
    + intros b' _. apply IH, Hrest.
Qed.

Lemma jsdom_loop_trace (E : env) rm sd cb (L : list string) :
  forall links b,
    (forall l, In l links -> In l L) ->
    Forall (fun e => browser_event e = false /\ (forall u, e <> EvNavigate u) /\
                     forall t, requested e = Some t ->
                               exists l, In l L /\ eligible l = true /\ t = sanitizeLink (trim l))
      (fst (jsdom_loop E rm sd cb links b)).
Proof.
  induction links as [|link rest IH]; intros b HL; simpl; [constructor|].
  apply Forall_bind.
  - eapply Forall_impl; [|apply fetch_single_trace]. intros ev [H1 [H2 H3]].
    split; [destruct ev; try discriminate; reflexivity|split; [exact H2|]].
    intros t Ht. destruct (H3 t Ht) as [-> He]. exists link; split; [apply HL; left; reflexivity|auto].
  - intros r _. apply Forall_bind.
    + apply push_updated_trace. intros; split; [reflexivity|split; discriminate].
    + intros b' _. apply IH. intros l Hl; apply HL; right; exact Hl.
Qed.

Lemma fst_processLinks (E : env) links rf p sd cb :
  fst (processLinks E links rf p sd cb) = fst (processLinks_batch E links rf p sd cb).
Proof.
  unfold processLinks. rewrite fst_bind.
  destruct (snd (processLinks_batch E links rf p sd cb)); simpl; [apply List.app_nil_r|reflexivity].
Qed.

(** Every page navigation and every [fetch] of a page that [processLinks]
    performs, in either mode, is for the sanitized form of an input line
    that is eligible: not processed, a valid link, not a single video, not
    on a blocked domain, no non-HTML extension.  The oEmbed title lookups
    of video lines ([EvYouTubeTitle]) are not page requests and are not
    covered. *)
Theorem processLinks_requests_eligible (E : env) links rf p sd cb :
  Forall (fun e => forall t, requested e = Some t ->
                             exists l, In l links /\ eligible l = true /\ t = sanitizeLink (trim l))
    (fst (processLinks E links rf p sd cb)).
Proof.
  rewrite fst_processLinks. unfold processLinks_batch. cbv zeta. clip_case; [constructor|].
  destruct (match p with Some q => q | None => cfg_parser E end).
  - apply Forall_bind.
    + apply classify_batch_trace; [intros ev _ H t Ht; congruence|intros i l t Ht; discriminate].
    + intros [b pend] Hc. destruct pend as [|it rest]; [constructor|].
      destruct (browser_ok E); [|constructor].
      apply Forall_bind; [constructor; [intros t Ht; discriminate|constructor]|intros _ _].
      rewrite fst_try_finally. apply Forall_app; split.
      * eapply Forall_impl; [|apply drain_trace].
        -- intros ev [_ H]; exact H.
        -- apply (classify_batch_pending E _ _ _ links) in Hc; [| |constructor].
           ++ eapply Forall_impl; [|exact Hc]. intros x [H _]; exact H.
           ++ intros l Hl; exact Hl.
      * constructor; [intros t Ht; discriminate|constructor].
  - eapply Forall_impl; [|apply jsdom_loop_trace; intros l Hl; exact Hl]. intros ev [_ [_ H]]; exact H.
Qed.

(** The browser is started at most once, only when some input line is
    eligible, and when it is started it is closed as the very last event,
    even when the drain throws.  The jsdom mode never starts it and never
    navigates. *)
Theorem processLinks_browser_lifecycle (E : env) links rf p sd cb :
  (Forall (fun e => browser_event e = false) (fst (processLinks E links rf p sd cb)) \/
   exists pre mid,
     fst (processLinks E links rf p sd cb) = (pre ++ EvBrowserInit :: mid ++ [EvBrowserClose])%list /\
     Forall (fun e => browser_event e = false) pre /\
     Forall (fun e => browser_event e = false) mid /\
     exists l, In l links /\ eligible l = true) /\
  (match p with Some q => q | None => cfg_parser E end = Jsdom ->
   Forall (fun e => browser_event e = false /\ forall u, e <> EvNavigate u)
     (fst (processLinks E links rf p sd cb))).
Proof.
  rewrite fst_processLinks. unfold processLinks_batch. cbv zeta.
  clip_case; [split; [left; constructor|intros _; constructor]|].
  destruct (match p with Some q => q | None => cfg_parser E end).
  - split; [|discriminate].
    assert (Htc : forall rm sd', Forall (fun e => browser_event e = false)
                    (fst (classify_batch E rm sd' cb links 0 empty_batch []))).
    { intros rm sd'. apply classify_batch_trace; [|reflexivity].
      intros ev H _; destruct ev; try discriminate; reflexivity. }
    rewrite fst_bind.
    match goal with |- context [classify_batch E ?rm ?sd' cb links 0 empty_batch []] =>
      specialize (Htc rm sd');
      destruct (snd (classify_batch E rm sd' cb links 0 empty_batch [])) as [[b pend]|e] eqn:Hc
    end; [|left; exact Htc].
    destruct pend as [|it rest]; cbn -[drain].
    { left; rewrite List.app_nil_r; exact Htc. }
    destruct (browser_ok E); cbn -[drain]; [|left; rewrite List.app_nil_r; exact Htc].
    right. match goal with |- context [try_finally ?m ?f] =>
      pose proof (fst_try_finally m f) as Hf; destruct (try_finally m f) as [tf rf0] end.
    cbn -[drain] in *. subst tf.
    eexists _, _. split; [reflexivity|]. split; [exact Htc|]. split.
    + eapply Forall_impl; [|apply (drain_trace _ _ _ _ links)].
      * intros ev [H _]; exact H.
      * apply (classify_batch_pending E _ _ _ links) in Hc; [| |constructor].
        -- eapply Forall_impl; [|exact Hc]. intros x [H _]; exact H.
        -- intros l Hl; exact Hl.
    + apply (classify_batch_pending E _ _ _ links) in Hc; [| |constructor].
      * inversion Hc as [|x xs [H1 H2] _]; subst. exists (fst (fst it)); auto.
      * intros l Hl; exact Hl.
  - assert (Hj := jsdom_loop_trace E (match match rf with Some f => f | None => cfg_return_format E end
                                         with Md => true | Json => false end)
                    (match sd with Some s => s | None => cfg_save_to_disk E end) cb links links
                    empty_batch (fun l Hl => Hl)).
    split.
    + left. eapply Forall_impl; [|exact Hj]. intros ev [H _]; exact H.
    + intros _. eapply Forall_impl; [|exact Hj]. intros ev [H1 [H2 _]]; auto.
Qed.

Section NoThrow.

Variable E : env.
Variable sd : bool.
Hypothesis Hw : sd = false \/ forall n, write_ok E n = true.

Lemma save_ok n c : snd (save E sd n c) = Ok tt.
Proof.
  unfold save. destruct Hw as [-> | H]; [reflexivity|]. destruct sd; [rewrite H|]; reflexivity.
Qed.

Lemma youtube_embed_ok c id : exists em, snd (youtube_embed E c id sd) = Ok em.
Proof.
  unfold youtube_embed. rewrite snd_bind.
  change (snd (fetchYouTubeTitle E c)) with (Ok (A := option string)
    (match oembed_title E c with
     | Some t => match trim t with EmptyString => None | t' => Some t' end
     | None => None
     end)).
  cbv beta iota zeta. rewrite snd_bind, save_ok. eexists; reflexivity.
Qed.

Lemma classify_single_ok link rm att :
  (forall line task, exists r, snd (att line task) = Ok r) ->
  exists r, snd (classify_single E link rm sd att) = Ok r.
Proof.
  intro Ha. unfold classify_single. cbv zeta.
  destruct (isProcessed (trim link)); [eexists; reflexivity|].
  destruct (isValidHttpLink (sanitizeLink (trim link))); simpl; [|eexists; reflexivity].
  destruct (video_id (sanitizeLink (trim link))) as [id|].
  - unfold youtube_single. rewrite snd_bind.
    match goal with |- context [snd (youtube_embed E ?c ?i sd)] =>
      destruct (youtube_embed_ok c i) as [em Hem]; rewrite Hem end.
    eexists; reflexivity.
  - destruct (isBlockedDomain _); [eexists; reflexivity|].
    destruct (hasNonHtmlExtension _); [eexists; reflexivity|]. apply Ha.
Qed.

Lemma stub_single_ok task rm : exists r, snd (stub_single E task rm sd) = Ok r.
Proof. unfold stub_single. rewrite snd_bind, save_ok. eexists; reflexivity. Qed.

Lemma fetch_single_ok link rm st : exists r, snd (processSingleLinkWithFetch E link rm sd st) = Ok r.
Proof.
  unfold processSingleLinkWithFetch. apply classify_single_ok. intros line task.
  rewrite snd_try_catch. destruct (snd (fetch_attempt E line task rm sd)) as [r|e]; [eauto|].
  destruct st; [apply stub_single_ok|eexists; reflexivity].
Qed.

Lemma puppeteer_single_ok link rm : exists r, snd (processSingleLinkWithPuppeteer E link rm sd) = Ok r.
Proof.
  unfold processSingleLinkWithPuppeteer. apply classify_single_ok. intros line task.
  rewrite snd_try_catch. destruct (snd (render_attempt E line task rm sd)) as [r|e]; [eauto|].
  apply fetch_single_ok.
Qed.

Lemma classify_batch_ok rm cb :
  forall links n b pend, exists bp, snd (classify_batch E rm sd cb links n b pend) = Ok bp.
Proof.
  induction links as [|link rest IH]; intros n b pend; simpl; [eexists; reflexivity|].
  destruct (isProcessed (trim link)); [rewrite snd_bind, snd_push_updated; apply IH|].
  destruct (video_id (sanitizeLink (trim link))) as [id|].
  { rewrite snd_bind.
    match goal with |- context [snd (youtube_embed E ?c ?i sd)] =>
      destruct (youtube_embed_ok c i) as [em Hem]; rewrite Hem end.
    rewrite snd_bind, snd_push_updated. apply IH. }
  destruct (isValidHttpLink (sanitizeLink (trim link))); simpl.
  2: { rewrite snd_bind, snd_push_updated; apply IH. }
  destruct (isBlockedDomain _); [rewrite snd_bind, snd_push_updated; apply IH|].
  destruct (hasNonHtmlExtension _); [rewrite snd_bind, snd_push_updated; apply IH|].
  apply IH.
Qed.

Lemma drain_ok rm cb : forall pending b, exists b', snd (drain E rm sd cb pending b) = Ok b'.
Proof.
  induction pending as [|[[link i] task] rest IH]; intros b; simpl; [eexists; reflexivity|].
  rewrite snd_bind. destruct (puppeteer_single_ok link rm) as [r Hr]. rewrite Hr.
  rewrite snd_bind, snd_push_updated. apply IH.
Qed.

Lemma jsdom_loop_ok rm cb : forall links b, exists b', snd (jsdom_loop E rm sd cb links b) = Ok b'.
Proof.
  induction links as [|link rest IH]; intros b; simpl; [eexists; reflexivity|].
  rewrite snd_bind. destruct (fetch_single_ok link rm false) as [r Hr]. rewrite Hr.
  rewrite snd_bind, snd_push_updated. apply IH.
Qed.

End NoThrow.

Lemma classify_batch_complete (E : env) rm sd cb :
  forall links n b pend b' pend',
    snd (classify_batch E rm sd cb links n b pend) = Ok (b', pend') ->
    (pend <> [] \/ exists l, In l links /\ eligible l = true) -> pend' <> [].
Proof.
  induction links as [|link rest IH]; intros n b pend b' pend' H Hne; simpl in H.
  - inversion H; subst. destruct Hne as [Hne|[l [[] _]]]; exact Hne.
  - assert (Hcase : eligible link = false -> pend <> [] \/ (exists l, In l rest /\ eligible l = true)).
    { intro Hf. destruct Hne as [Hne|[l [[<-|Hl] He]]]; [left; exact Hne|congruence|right; eauto]. }
    unfold eligible in Hcase. cbv zeta in Hcase.
    destruct (isProcessed (trim link)) eqn:Hpr.
    { step_bind H. eapply IH; [exact H|apply Hcase; reflexivity]. }
    destruct (video_id (sanitizeLink (trim link))) as [id|] eqn:Hy.
    { rewrite snd_bind in H.
      destruct (snd (youtube_embed E _ id sd)) as [em|e]; [|discriminate].
      step_bind H. eapply IH; [exact H|apply Hcase; rewrite andb_false_r; simpl; destruct (isValidHttpLink _); reflexivity]. }
    destruct (isValidHttpLink (sanitizeLink (trim link))) eqn:Hv; simpl in H.
    2: { step_bind H. eapply IH; [exact H|apply Hcase; reflexivity]. }
    destruct (isBlockedDomain (sanitizeLink (trim link))) eqn:Hb.
    { step_bind H. eapply IH; [exact H|apply Hcase; reflexivity]. }
    destruct (hasNonHtmlExtension (sanitizeLink (trim link))) eqn:Hx.
    { step_bind H. eapply IH; [exact H|apply Hcase; reflexivity]. }
    eapply IH; [exact H|left]. destruct pend; discriminate.
Qed.

Lemma snd_processLinks_throw (E : env) links rf p sd cb e :
  snd (processLinks E links rf p sd cb) = Throw e <->
  snd (processLinks_batch E links rf p sd cb) = Throw e.
Proof.
  unfold processLinks. rewrite snd_bind.
  destruct (snd (processLinks_batch E links rf p sd cb)); simpl; split; congruence.
Qed.

(** With saving off, or every write succeeding, [processLinks] throws in
    two cases only: saving is on and CLIPPING_DIR is unset, and the error is
    [CLIPPING_DIR not configured]; or the final parser is puppeteer, some
    line is eligible and the browser cannot be started, and the error is
    the one [initializePuppeteer] throws. *)
Theorem processLinks_throw_cases (E : env) links rf p sd cb e :
  (match sd with Some s => s | None => cfg_save_to_disk E end = false \/
   forall n, write_ok E n = true) ->
  (snd (processLinks E links rf p sd cb) = Throw e <->
   (match sd with Some s => s | None => cfg_save_to_disk E end = true /\
    clipping_dir_set E = false /\ e = "CLIPPING_DIR not configured") \/
   ((match sd with Some s => s | None => cfg_save_to_disk E end = false \/
     clipping_dir_set E = true) /\
    e = browser_error E /\ match p with Some q => q | None => cfg_parser E end = Puppeteer /\
    browser_ok E = false /\ exists l, In l links /\ eligible l = true)).
Proof.
  intro Hw. rewrite snd_processLinks_throw. unfold processLinks_batch. cbv zeta. clip_case.
  { apply andb_true_iff in Hclip as [Hs Hc]. apply negb_true_iff in Hc.
    simpl. split.
    - intro H; injection H as <-. left; auto.
    - intros [[_ [_ ->]]|[[H|H] _]]; [reflexivity|congruence|congruence]. }
  eapply (@iff_trans _ (e = browser_error E /\ match p with Some q => q | None => cfg_parser E end = Puppeteer /\
                        browser_ok E = false /\ exists l, In l links /\ eligible l = true)).
  2: { assert (Hn : match sd with Some s => s | None => cfg_save_to_disk E end = false \/
                    clipping_dir_set E = true).
       { destruct (match sd with Some s => s | None => cfg_save_to_disk E end), (clipping_dir_set E);
           simpl in Hclip; auto; discriminate. }
       split; [intro H; right; split; assumption|].
       intros [[H1 [H2 _]]|[_ H]]; [rewrite H1, H2 in Hclip; discriminate|exact H]. }
  destruct (match p with Some q => q | None => cfg_parser E end).
  - rewrite snd_bind.
    match goal with |- context [classify_batch E ?rm ?sd' cb links 0 empty_batch []] =>
      destruct (classify_batch_ok E sd' Hw rm cb links 0 empty_batch []) as [[b pend] Hc];
      rewrite Hc
    end.
    pose proof (classify_batch_complete E _ _ _ _ _ _ _ _ _ Hc) as Hcc.
    pose proof (classify_batch_pending E _ _ _ links _ _ _ _ _ _ (fun l Hl => Hl) (Forall_nil _) Hc)
      as Hp.
    destruct pend as [|it rest]; cbn -[drain].
    + split; [discriminate|]. intros [_ [_ [_ Hl]]]. exfalso. exact (Hcc (or_intror Hl) eq_refl).
    + destruct (browser_ok E) eqn:Hb; cbn -[drain].
      * match goal with |- context [try_finally ?m ?f] =>
          pose proof (snd_try_finally m f) as Hf; destruct (try_finally m f) as [tf rf0]
        end.
        cbn -[drain] in Hf |- *. rewrite Hf.
        match goal with |- context [drain E ?rm ?sd' cb ?pd b] =>
          destruct (drain_ok E sd' Hw rm cb pd b) as [b' Hd]; rewrite Hd
        end.
        split; [discriminate|]. intros [_ [_ [H _]]]; discriminate.
      * split.
        -- intro H; injection H as <-. split; [reflexivity|split; [reflexivity|split; [reflexivity|]]].
           inversion Hp as [|x xs [H1 H2] _]; subst. exists (fst (fst it)); auto.
        -- intros [-> _]; reflexivity.
  - match goal with |- context [jsdom_loop E ?rm ?sd' cb links empty_batch] =>
      destruct (jsdom_loop_ok E sd' Hw rm cb links empty_batch) as [b' Hj]; rewrite Hj
    end.
    split; [discriminate|]. intros [_ [H _]]; discriminate.
Qed.

Lemma callbacks_app t1 t2 : callbacks (t1 ++ t2)%list = (callbacks t1 ++ callbacks t2)%list.
Proof. unfold callbacks. apply flat_map_app. Qed.

Lemma callbacks_single t : Forall (fun e => single_event e = true) t -> callbacks t = [].
Proof.
  induction 1 as [|e t He _ IH]; [reflexivity|].
  unfold callbacks in *; simpl. rewrite IH. destruct e; try discriminate; reflexivity.
Qed.

Lemma push_updated_callbacks cb b l :
  callbacks (fst (push_updated cb b l)) = if cb then [(length (updatedLinks b), l)] else [].
Proof.
  unfold push_updated. destruct cb; simpl; [|reflexivity].
  rewrite length_app; simpl. rewrite Nat.add_sub. reflexivity.
Qed.



Ltac cb_push IH H cb :=
  rewrite fst_bind, snd_push_updated; cbv beta iota;
  rewrite callbacks_app, push_updated_callbacks;
  rewrite snd_bind, snd_push_updated in H; cbv beta iota in H;
  let nw := fresh "nw" in let Hu := fresh "Hu" in let Hcb := fresh "Hcb" in
  destruct (IH _ _ _ _ _ H) as [nw [Hu Hcb]]; simpl in Hu, Hcb;
  eexists; split; [rewrite Hu, <- List.app_assoc; reflexivity|];
  rewrite Hcb, length_app; simpl;
  destruct cb; simpl; [rewrite Nat.add_1_r; reflexivity|reflexivity].

Lemma classify_batch_callbacks (E : env) rm sd cb :
  forall links n b pend b' pend',
    snd (classify_batch E rm sd cb links n b pend) = Ok (b', pend') ->
    exists nw, updatedLinks b' = (updatedLinks b ++ nw)%list /\
      callbacks (fst (classify_batch E rm sd cb links n b pend)) =
        if cb then combine (seq (length (updatedLinks b)) (length nw)) nw else [].
Proof.
  induction links as [|link rest IH]; intros n b pend b' pend' H; simpl in H |- *.
  - inversion H; subst. exists []. rewrite List.app_nil_r. destruct cb; split; reflexivity.
  - destruct (isProcessed (trim link)); [cb_push IH H cb|].
    destruct (video_id (sanitizeLink (trim link))) as [id|].
    { rewrite fst_bind. rewrite snd_bind in H.
      pose proof (youtube_embed_trace E (canonicalizeYouTubeUrl (sanitizeLink (trim link)) (Some id)) id sd) as Ht.
      destruct (snd (youtube_embed E _ id sd)) as [em|e]; [|discriminate].
      rewrite callbacks_app, callbacks_single by (eapply Forall_impl; [|exact Ht]; intros ev [Hs _]; exact Hs).
      simpl. destruct rm; cb_push IH H cb. }
    destruct (isValidHttpLink (sanitizeLink (trim link))); simpl in H |- *; [|cb_push IH H cb].
    destruct (isBlockedDomain (sanitizeLink (trim link))); [cb_push IH H cb|].
    destruct (hasNonHtmlExtension (sanitizeLink (trim link))); [cb_push IH H cb|].
    apply (IH _ _ _ _ _ H).
Qed.

Lemma drain_callbacks (E : env) rm sd cb :
  forall pending b b',
    snd (drain E rm sd cb pending b) = Ok b' ->
    exists nw, updatedLinks b' = (updatedLinks b ++ nw)%list /\
      callbacks (fst (drain E rm sd cb pending b)) =
        if cb then combine (seq (length (updatedLinks b)) (length nw)) nw else [].
Proof.
  induction pending as [|[[link i] task] rest IH]; intros b b' H; simpl in H |- *.
  - inversion H; subst. exists []. rewrite List.app_nil_r. destruct cb; split; reflexivity.
  - rewrite fst_bind. rewrite snd_bind in H.
    pose proof (puppeteer_single_trace E link rm sd) as Ht.
    destruct (snd (processSingleLinkWithPuppeteer E link rm sd)) as [r|e]; [|discriminate].
    rewrite callbacks_app, callbacks_single by (eapply Forall_impl; [|exact Ht]; intros ev [Hs _]; exact Hs).
    simpl.
    rewrite fst_bind, snd_push_updated; cbv beta iota.
    rewrite callbacks_app, push_updated_callbacks.
    rewrite snd_bind, snd_push_updated in H; cbv beta iota in H.
    destruct (IH _ _ H) as [nw [Hu Hcb]]. rewrite add_results_updated in Hu, Hcb. simpl in Hu, Hcb.
    eexists; split; [rewrite Hu, <- List.app_assoc; reflexivity|].
    rewrite Hcb, length_app; simpl.
    destruct cb; simpl; [rewrite Nat.add_1_r; reflexivity|reflexivity].
Qed.

Lemma jsdom_loop_callbacks (E : env) rm sd cb :
  forall links b b',
    snd (jsdom_loop E rm sd cb links b) = Ok b' ->
    exists nw, updatedLinks b' = (updatedLinks b ++ nw)%list /\
      Forall2 (fun l u => exists r, snd (processSingleLinkWithFetch E l rm sd false) = Ok r /\
                                    updatedLink r = u) links nw /\
      callbacks (fst (jsdom_loop E rm sd cb links b)) =
        if cb then combine (seq (length (updatedLinks b)) (length nw)) nw else [].
Proof.
  induction links as [|link rest IH]; intros b b' H; simpl in H |- *.
  - inversion H; subst. exists []. rewrite List.app_nil_r. destruct cb; repeat split; constructor.
  - rewrite fst_bind. rewrite snd_bind in H.
    pose proof (fetch_single_trace E link rm sd false) as Ht.
    destruct (snd (processSingleLinkWithFetch E link rm sd false)) as [r|e] eqn:Hr; [|discriminate].
    rewrite callbacks_app, callbacks_single by (eapply Forall_impl; [|exact Ht]; intros ev [Hs _]; exact Hs).
    simpl.
    rewrite fst_bind, snd_push_updated; cbv beta iota.
    rewrite callbacks_app, push_updated_callbacks.
    rewrite snd_bind, snd_push_updated in H; cbv beta iota in H.
    destruct (IH _ _ H) as [nw [Hu [Hf Hcb]]]. rewrite add_results_updated in Hu, Hcb. simpl in Hu, Hcb.
    exists (updatedLink r :: nw). split; [rewrite Hu, <- List.app_assoc; reflexivity|]. split.
    + constructor; [exists r; split; [exact Hr|reflexivity]|exact Hf].
    + rewrite Hcb, length_app; simpl.
      destruct cb; simpl; [rewrite Nat.add_1_r; reflexivity|reflexivity].
Qed.

Lemma combine_seq_app k (xs ys : list string) :
  (combine (seq k (length xs)) xs ++ combine (seq (k + length xs) (length ys)) ys)%list =
  combine (seq k (length (xs ++ ys))) (xs ++ ys).
Proof.
  revert k; induction xs as [|x xs IH]; intro k; simpl; [rewrite Nat.add_0_r; reflexivity|].
  f_equal. rewrite <- IH. f_equal. f_equal. f_equal. lia.
Qed.

Lemma processLinks_batch_callbacks (E : env) links rf p sd cb b :
  snd (processLinks_batch E links rf p sd cb) = Ok b ->
  callbacks (fst (processLinks_batch E links rf p sd cb)) =
    if cb then combine (seq 0 (length (updatedLinks b))) (updatedLinks b) else [].
Proof.
  unfold processLinks_batch. cbv zeta. clip_case; [simpl; discriminate|].
  destruct (match p with Some q => q | None => cfg_parser E end).
  - rewrite fst_bind, snd_bind.
    match goal with |- context [classify_batch E ?rm ?sd' cb links 0 empty_batch []] =>
      pose proof (classify_batch_callbacks E rm sd' cb links 0 empty_batch []) as Hcc;
      destruct (snd (classify_batch E rm sd' cb links 0 empty_batch [])) as [[b0 pend]|e];
      [|discriminate]
    end.
    destruct (Hcc b0 pend eq_refl) as [nw [Hu Hcb]]; clear Hcc. simpl in Hu, Hcb.
    destruct pend as [|it rest]; cbn -[drain].
    + intro H; injection H as <-. rewrite List.app_nil_r, Hcb, Hu; reflexivity.
    + destruct (browser_ok E); cbn -[drain]; [|discriminate].
      match goal with |- context [try_finally ?m ?f] =>
        pose proof (snd_try_finally m f) as Hs; pose proof (fst_try_finally m f) as Hf;
        destruct (try_finally m f) as [tf rf0]
      end.
      cbn -[drain] in Hs, Hf |- *. subst tf rf0. intro Hd.
      match type of Hd with snd (drain E ?rm ?sd' cb ?pd ?b1) = _ =>
        destruct (drain_callbacks E rm sd' cb pd b1 b Hd) as [nw2 [Hu2 Hcb2]]
      end.
      rewrite callbacks_app, Hcb. change (callbacks (EvBrowserInit :: ?t)) with (callbacks t).
      rewrite callbacks_app, Hcb2, Hu2, Hu.
      destruct cb; simpl; [|reflexivity].
      rewrite !List.app_nil_r, <- combine_seq_app. reflexivity.
  - intro H.
    match type of H with snd (jsdom_loop E ?rm ?sd' cb links empty_batch) = _ =>
      destruct (jsdom_loop_callbacks E rm sd' cb links empty_batch b H) as [nw [Hu [_ Hcb]]]
    end.
    rewrite Hcb, Hu. reflexivity.
Qed.

(** When [processLinks] completes, [onLinkProcessed] has been called once
    per input line, with indices [0, 1, ...] in order, the [i]-th call
    carrying [updatedLinks[i]]; without a callback none is called. *)
Theorem processLinks_callbacks_indexed (E : env) links rf p sd cb b :
  snd (processLinks_batch E links rf p sd cb) = Ok b ->
  callbacks (fst (processLinks E links rf p sd cb)) =
    if cb then combine (seq 0 (length links)) (updatedLinks b) else [].
Proof.
  intro H. rewrite fst_processLinks, (processLinks_batch_callbacks _ _ _ _ _ _ _ H).
  rewrite (processLinks_length E links rf p sd cb b); [reflexivity|].
  unfold result_of; rewrite H; reflexivity.
Qed.

(** In jsdom mode [updatedLinks] lists, in input order, the [updatedLink]
    of [processSingleLinkWithFetch] (without the stub fallback) on each
    input line. *)
Theorem processLinks_jsdom_in_order (E : env) links rf sd cb b :
  snd (processLinks_batch E links rf (Some Jsdom) sd cb) = Ok b ->
  Forall2 (fun l u => exists r,
             snd (processSingleLinkWithFetch E l
                    (match match rf with Some f => f | None => cfg_return_format E end with
                     | Md => true | Json => false end)
                    (match sd with Some s => s | None => cfg_save_to_disk E end) false) = Ok r /\
             updatedLink r = u)
    links (updatedLinks b).
Proof.
  intro H. unfold processLinks_batch in H. cbv zeta in H. revert H.
  clip_case; [simpl; discriminate|]. intro H.
  match type of H with snd (jsdom_loop E ?rm ?sd' cb links empty_batch) = _ =>
    destruct (jsdom_loop_callbacks E rm sd' cb links empty_batch b H) as [nw [Hu [Hf _]]]
  end.
  rewrite Hu. exact Hf.
Qed.

Lemma set_nth_length lines i s : length (set_nth lines i s) = length lines.
Proof. revert i; induction lines as [|x r IH]; intros [|i]; simpl; auto. Qed.

Lemma set_nth_other lines i j s : i <> j -> nth_error (set_nth lines i s) j = nth_error lines j.
Proof.
  revert i j; induction lines as [|x r IH]; intros [|i] [|j] H; simpl; auto; try lia.
Qed.

Lemma set_nth_same lines i s : i < length lines -> nth_error (set_nth lines i s) i = Some s.
Proof.
  revert i; induction lines as [|x r IH]; intros [|i] H; simpl in *; auto; try lia.
  all: apply IH; lia.
Qed.

Lemma apply_callbacks_length (E : env) pending : forall cbs lines,
  length (apply_callbacks E pending lines cbs) = length lines.
Proof.
  induction cbs as [|[idx s] rest IH]; intros lines; simpl; [reflexivity|].
  destruct (nth_error pending idx) as [[index raw]|]; [|reflexivity].
  destruct (links_write_ok E _); [|reflexivity].
  rewrite IH; apply set_nth_length.
Qed.

Lemma apply_callbacks_other (E : env) pending i : ~ In i (map fst pending) -> forall cbs lines,
  nth_error (apply_callbacks E pending lines cbs) i = nth_error lines i.
Proof.
  intros Hi; induction cbs as [|[idx s] rest IH]; intros lines; simpl; [reflexivity|].
  destruct (nth_error pending idx) as [[index raw]|] eqn:Hn; [|reflexivity].
  destruct (links_write_ok E _); [|reflexivity].
  rewrite IH. apply set_nth_other. intros ->. apply Hi.
  apply nth_error_In in Hn. apply (in_map fst) in Hn. exact Hn.
Qed.

Lemma pending_filter_spec (f : nat * string -> bool) :
  forall (lines : list string) k,
    NoDup (map fst (filter f (combine (seq k (length lines)) lines))) /\
    Forall (fun ir => k <= fst ir < k + length lines /\ nth_error lines (fst ir - k) = Some (snd ir)
                      /\ f ir = true)
      (filter f (combine (seq k (length lines)) lines)).
Proof.
  induction lines as [|x r IH]; intros k; simpl; [split; constructor|].
  destruct (IH (S k)) as [Hnd Hf].
  assert (Hf' : Forall (fun ir => k <= fst ir < k + S (length r) /\
                                  nth_error (x :: r) (fst ir - k) = Some (snd ir) /\ f ir = true)
                  (filter f (combine (seq (S k) (length r)) r))).
  { eapply Forall_impl; [|exact Hf]. intros [i y] [H1 [H2 H3]]; simpl in *.
    split; [lia|split; [|exact H3]]. replace (i - k) with (S (i - S k)) by lia. exact H2. }
  destruct (f (k, x)) eqn:Hk; simpl.
  - split.
    + constructor; [|exact Hnd]. intro Hin. apply in_map_iff in Hin as [[i y] [Hi Hin]].
      simpl in Hi; subst i. rewrite Forall_forall in Hf. apply Hf in Hin. simpl in Hin. lia.
    + constructor; [|exact Hf']. simpl. rewrite Nat.sub_diag. repeat split; auto; lia.
  - split; [exact Hnd|exact Hf'].
Qed.

(** [initialProcess] fails only when LINKS_FILE is unset or the links file
    cannot be read, with that error; a failure of the batch is caught.
    Otherwise the file keeps its number of lines, and every line that is
    blank, already checked off or not a valid link stays as it is. *)
Theorem initialProcess_keeps_other_lines (E : env) :
  match initialProcess E with
  | Throw m =>
      getLinksFilePath E = Throw m \/
      exists f, getLinksFilePath E = Ok f /\ read_file E f = Throw m
  | Ok final =>
      exists f content, getLinksFilePath E = Ok f /\ read_file E f = Ok content /\
      length final = length (split_on (ascii_of_nat 10) content) /\
      forall i line,
        nth_error (split_on (ascii_of_nat 10) content) i = Some line ->
        shouldSkip (trim line) = true \/ isValidHttpLink (sanitizeLink (trim line)) = false ->
        nth_error final i = Some line
  end.
Proof.
  unfold initialProcess.
  destruct (getLinksFilePath E) as [f|m] eqn:Hg; [|left; reflexivity].
  destruct (read_file E f) as [content|m] eqn:Hr; [|right; exists f; auto].
  cbv beta iota zeta.
  set (lines := split_on (ascii_of_nat 10) content).
  assert (Hnot : forall i line, nth_error lines i = Some line ->
                   shouldSkip (trim line) = true \/ isValidHttpLink (sanitizeLink (trim line)) = false ->
                   ~ In i (map fst (pending_lines lines))).
  { intros i line Hl Hs Hin. unfold pending_lines in Hin.
    destruct (pending_filter_spec (fun ir => negb (shouldSkip (trim (snd ir))) &&
                                              isValidHttpLink (sanitizeLink (trim (snd ir)))) lines 0)
      as [_ Hf].
    apply in_map_iff in Hin as [[i' y] [Hi Hin]]. simpl in Hi; subst i'.
    rewrite Forall_forall in Hf. apply Hf in Hin as [_ [Hy Hk]]. simpl in Hy, Hk.
    rewrite Nat.sub_0_r, Hl in Hy. injection Hy as <-.
    destruct Hs as [Hs|Hs]; rewrite Hs in Hk; [discriminate|rewrite andb_false_r in Hk; discriminate]. }
  destruct (pending_lines lines) as [|it rest] eqn:Hp;
    exists f, content; (split; [first [reflexivity|assumption]|split; [first [reflexivity|assumption]|]]).
  - split; [reflexivity|]. intros i line Hl _; exact Hl.
  - split; [apply apply_callbacks_length|].
    intros i line Hl Hs. rewrite apply_callbacks_other; [exact Hl|]. exact (Hnot i line Hl Hs).
Qed.

Lemma Forall2_nth_rel {X Y} (R : X -> Y -> Prop) (xs : list X) (ys : list Y) dx dy :
  Forall2 R xs ys -> forall j, j < length xs -> R (nth j xs dx) (nth j ys dy).
Proof.
  induction 1 as [|x y xs ys Hxy _ IH]; intros j Hj; simpl in *; [lia|].
  destruct j; [exact Hxy|apply IH; lia].
Qed.

Lemma nodup_fst_nth (P : list (nat * string)) d a b :
  NoDup (map fst P) -> a < length P -> b < length P -> a <> b ->
  fst (nth a P d) <> fst (nth b P d).
Proof.
  intros Hnd Ha Hb Hab Heq. apply Hab.
  apply (proj1 (NoDup_nth (map fst P) (fst d)) Hnd); rewrite ?length_map; auto.
  rewrite !map_nth. exact Heq.
Qed.

Lemma apply_callbacks_seq (E : env) (P : list (nat * string)) d :
  (forall c, links_write_ok E c = true) ->
  NoDup (map fst P) -> forall (us : list string) k lines,
    k + length us <= length P ->
    Forall (fun ir => fst ir < length lines) P ->
    (forall j, j < length us ->
       nth_error (apply_callbacks E P lines (combine (seq k (length us)) us)) (fst (nth (k + j) P d))
       = nth_error us j) /\
    (forall i, (forall j, j < length us -> fst (nth (k + j) P d) <> i) ->
       nth_error (apply_callbacks E P lines (combine (seq k (length us)) us)) i = nth_error lines i).
Proof.
  intros Hwr Hnd us. induction us as [|u us IH]; intros k lines Hk Hr.
  - simpl. split; [intros j Hj; lia|intros; reflexivity].
  - simpl in Hk |- *.
    rewrite (nth_error_nth' P d) by lia. destruct (nth k P d) as [index raw] eqn:Hnk.
    rewrite Hwr.
    assert (Hidx : index < length lines).
    { assert (Hkl : k < length P) by lia.
      rewrite Forall_forall in Hr. specialize (Hr (nth k P d) (nth_In P d Hkl)).
      rewrite Hnk in Hr; exact Hr. }
    assert (Hr' : Forall (fun ir => fst ir < length (set_nth lines index u)) P).
    { rewrite set_nth_length; exact Hr. }
    assert (Hk' : S k + length us <= length P) by lia.
    destruct (IH (S k) (set_nth lines index u) Hk' Hr') as [IH1 IH2].
    split.
    + intros [|j] Hj.
      * rewrite Nat.add_0_r, Hnk. simpl. rewrite IH2; [apply set_nth_same, Hidx|].
        intros j Hj' Heq. apply (nodup_fst_nth P d (S k + j) k Hnd); [lia|lia|lia|].
        rewrite Heq, Hnk; reflexivity.
      * simpl. replace (k + S j) with (S k + j) by lia. apply IH1. lia.
    + intros i Hi. rewrite IH2.
      * apply set_nth_other. intros ->. apply (Hi 0); [lia|]. rewrite Nat.add_0_r, Hnk; reflexivity.
      * intros j Hj. replace (S k + j) with (k + S j) by lia. apply Hi. lia.
Qed.

(** In jsdom mode, when the links file can be read, saving is off or
    CLIPPING_DIR is set and every clipping write succeeds, and every write
    of the links file succeeds, each pending line of the links file ends up
    replaced by the [updatedLink] that [processSingleLinkWithFetch] gives
    for that raw line. *)
Theorem initialProcess_jsdom_marks (E : env) (f content : string) :
  cfg_parser E = Jsdom ->
  (cfg_save_to_disk E = false \/ (clipping_dir_set E = true /\ forall n, write_ok E n = true)) ->
  (forall c, links_write_ok E c = true) ->
  getLinksFilePath E = Ok f -> read_file E f = Ok content ->
  exists final, initialProcess E = Ok final /\
    Forall (fun ir => exists r,
               snd (processSingleLinkWithFetch E (snd ir) true (cfg_save_to_disk E) false) = Ok r /\
               nth_error final (fst ir) = Some (updatedLink r))
      (pending_lines (split_on (ascii_of_nat 10) content)).
Proof.
  intros HJ Hs Hwr Hg Hrd.
  assert (Hw : cfg_save_to_disk E = false \/ forall n, write_ok E n = true)
    by (destruct Hs as [H|[_ H]]; auto).
  unfold initialProcess. rewrite Hg. cbv beta iota. rewrite Hrd. cbv beta iota zeta.
  set (lines := split_on (ascii_of_nat 10) content).
  destruct (pending_filter_spec (fun ir => negb (shouldSkip (trim (snd ir))) &&
                                            isValidHttpLink (sanitizeLink (trim (snd ir)))) lines 0)
    as [Hnd Hf].
  fold (pending_lines lines) in Hnd, Hf.
  destruct (pending_lines lines) as [|it rest] eqn:Hp; [exists lines; split; [reflexivity|constructor]|].
  set (P := it :: rest) in *.
  destruct (jsdom_loop_ok E (cfg_save_to_disk E) Hw true true (map snd P) empty_batch) as [b Hb].
  destruct (jsdom_loop_callbacks E true (cfg_save_to_disk E) true (map snd P) empty_batch b Hb)
    as [nw [_ [Hf2 Hcb]]].
  assert (Hcb' : callbacks (fst (processLinks E (map snd P) (Some Md) None None true)) =
                 combine (seq 0 (length nw)) nw).
  { rewrite fst_processLinks. unfold processLinks_batch. cbv zeta. clip_case.
    - exfalso. cbv beta iota in Hclip. destruct Hs as [H0|[H0 _]]; rewrite H0 in Hclip; [discriminate|].
      destruct (cfg_save_to_disk E); discriminate.
    - rewrite HJ. exact Hcb. }
  eexists; split; [reflexivity|].
  assert (Hlen : length nw = length P).
  { rewrite <- (length_map snd P). symmetry. eapply Forall2_length; exact Hf2. }
  rewrite Hcb'.
  assert (Hr : Forall (fun ir => fst ir < length lines) P).
  { eapply Forall_impl; [|exact Hf]. intros ir [H _]; lia. }
  destruct (apply_callbacks_seq E P (0, EmptyString) Hwr Hnd nw 0 lines ltac:(lia) Hr) as [H1 _].
  rewrite Forall_forall. intros ir Hin.
  destruct (In_nth P ir (0, EmptyString) Hin) as [j [Hj Hnj]].
  pose proof (Forall2_nth_rel _ _ _ (snd (0, EmptyString)) EmptyString Hf2 j) as Hrel.
  rewrite length_map, map_nth, Hnj in Hrel. destruct (Hrel Hj) as [r0 [Hr0 Hu]].
  exists r0. split; [exact Hr0|].
  rewrite <- Hnj. pose proof (H1 j) as H1j. change (0 + j) with j in H1j. rewrite H1j by lia.
  rewrite Hu. apply nth_error_nth'. lia.
Qed.

(** ** Instances of the further properties *)

Lemma hasNonHtmlExtension_query_witness :
  includes_char "?" "https://example.com/report.pdf" = false /\
  hasNonHtmlExtension ("https://example.com/report.pdf" ++ String "?" "download=1") = true.
Proof.
  split; [vm_compute; reflexivity |].
  rewrite (hasNonHtmlExtension_query "https://example.com/report.pdf" "download=1");
    vm_compute; reflexivity.
Defined.

Lemma fixImagePaths_no_image_witness :
  includes "![" "see [the docs](guide.html)" = false /\
  fixImagePaths "see [the docs](guide.html)" "https://example.com/a/" = "see [the docs](guide.html)".
Proof.
  split; [vm_compute; reflexivity |].
  apply fixImagePaths_no_image; vm_compute; reflexivity.
Defined.

Lemma processLinks_throw_cases_witness :
  snd (processLinks (Fixtures.env_no_browser Puppeteer Md false)
         ["notes"; "https://example.com/a"] None None None false) = Throw Fixtures.chrome_missing.
Proof.
  apply (proj2 (processLinks_throw_cases
                  (Fixtures.env_no_browser Puppeteer Md false)
                  ["notes"; "https://example.com/a"] None None None false Fixtures.chrome_missing
                  (or_introl eq_refl))).
  right. split; [left; reflexivity|].
  split; [reflexivity|split; [reflexivity|split; [reflexivity|]]].
  exists "https://example.com/a". split; [right; left; reflexivity|vm_compute; reflexivity].
Defined.

Lemma processLinks_callbacks_indexed_witness :
  snd (processLinks_batch (Fixtures.env_offline Jsdom Md false)
         ["https://example.com/a"; "- [x] done"] None None None true)
  = Ok (mkBatch ["https://example.com/a"; "- [x] done"] [EmptyString; EmptyString] []) /\
  callbacks (fst (processLinks (Fixtures.env_offline Jsdom Md false)
                    ["https://example.com/a"; "- [x] done"] None None None true))
  = [(0, "https://example.com/a"); (1, "- [x] done")].
Proof.
  assert (H : snd (processLinks_batch (Fixtures.env_offline Jsdom Md false)
                     ["https://example.com/a"; "- [x] done"] None None None true)
              = Ok (mkBatch ["https://example.com/a"; "- [x] done"] [EmptyString; EmptyString] []))
    by (vm_compute; reflexivity).
  split; [exact H|].
  exact (processLinks_callbacks_indexed _ _ _ _ _ _ _ H).
Defined.

Lemma processLinks_jsdom_in_order_witness :
  snd (processLinks_batch (Fixtures.env_offline Puppeteer Md false)
         ["https://example.com/a"; "- [x] done"] None (Some Jsdom) None false)
  = Ok (mkBatch ["https://example.com/a"; "- [x] done"] [EmptyString; EmptyString] []) /\
  Forall2 (fun l u => exists r,
             snd (processSingleLinkWithFetch (Fixtures.env_offline Puppeteer Md false) l true false false)
             = Ok r /\ updatedLink r = u)
    ["https://example.com/a"; "- [x] done"] ["https://example.com/a"; "- [x] done"].
Proof.
  assert (H : snd (processLinks_batch (Fixtures.env_offline Puppeteer Md false)
                     ["https://example.com/a"; "- [x] done"] None (Some Jsdom) None false)
              = Ok (mkBatch ["https://example.com/a"; "- [x] done"] [EmptyString; EmptyString] []))
    by (vm_compute; reflexivity).
  split; [exact H|].
  exact (processLinks_jsdom_in_order _ _ _ _ _ _ H).
Defined.

Lemma initialProcess_jsdom_marks_witness :
  cfg_parser Fixtures.links_env = Jsdom /\
  getLinksFilePath Fixtures.links_env = Ok "links.md" /\
  read_file Fixtures.links_env "links.md" = Ok Fixtures.links_content /\
  exists final, initialProcess Fixtures.links_env = Ok final /\
    Forall (fun ir => exists r,
               snd (processSingleLinkWithFetch Fixtures.links_env (snd ir) true false false) = Ok r /\
               nth_error final (fst ir) = Some (updatedLink r))
      (pending_lines (split_on (ascii_of_nat 10) Fixtures.links_content)).
Proof.
  split; [reflexivity|]. split; [reflexivity|]. split; [reflexivity|].
  exact (initialProcess_jsdom_marks Fixtures.links_env "links.md" Fixtures.links_content
           eq_refl (or_introl eq_refl) (fun _ => eq_refl) eq_refl eq_refl).
Defined.

End Facts.
